(** * jet-ddpm: closed-form DDPM probability parameters

    A shallow embedding of the reference computations of
    [tests/test_dp_ddpm.py] and of [jetgen/models/funcs.py], together with
    a model of the diffusion engine they exercise.

    The computations are embedded twice.  In [Torch] a tensor element is
    an exact real or the marker [NaN], which stands for every non-finite
    IEEE result (a division by zero, the square root of a negative
    number, and anything computed from one of these); rounding is left
    out.  This is the setting for indexing, shapes, failures and the
    algebra of the formulas.  In [F32] a tensor element is a binary32
    value with the rounding of IEEE 754, as the tensors of the tests have
    it; what depends on rounding (an exact zero, a strict inequality, a
    tolerance, a denominator that vanishes) is settled there. *)

From Stdlib Require Import String.
From Stdlib Require Import Reals Lra Lia ZArith List Bool.
From Stdlib Require Import Floats.SpecFloat.
Import ListNotations.
Local Open Scope R_scope.

(* ===================================================================== *)
(** ** Python results *)
(* ===================================================================== *)

Inductive exn : Set :=
| IndexError
| RuntimeError
| ConfigurationError
| NumericalInstabilityError.

Inductive result (A : Type) : Type :=
| Ok (a : A)
| Raise (e : exn).
Arguments Ok {A} a.
Arguments Raise {A} e.

Definition bind {A B : Type} (m : result A) (k : A -> result B) : result B :=
  match m with
  | Ok a => k a
  | Raise e => Raise e
  end.

Declare Scope py_scope.
Delimit Scope py_scope with py.
Notation "x <- m ;; k" := (bind m (fun x => k))
  (at level 61, m at next level, right associativity) : py_scope.

(* ===================================================================== *)
(** ** Tensor elements and one-dimensional tensors *)
(* ===================================================================== *)

Module Torch.

(** A tensor element without rounding: a finite real, or a non-finite
    value.  Every operation returns the exact result, so [1 - (1 - b)]
    is [b] here; the binary32 elements of [F32] round. *)
Inductive num : Type :=
| Fin (r : R)
| NaN.

Definition nlift2 (f : R -> R -> R) (x y : num) : num :=
  match x, y with
  | Fin a, Fin b => Fin (f a b)
  | _, _ => NaN
  end.

Definition nadd : num -> num -> num := nlift2 Rplus.
Definition nsub : num -> num -> num := nlift2 Rminus.
Definition nmul : num -> num -> num := nlift2 Rmult.

(** [x / y]: dividing by zero gives a non-finite value. *)
Definition ndiv (x y : num) : num :=
  match x, y with
  | Fin a, Fin b => if Req_dec_T b 0 then NaN else Fin (a / b)
  | _, _ => NaN
  end.

Definition nneg (x : num) : num :=
  match x with
  | Fin a => Fin (- a)
  | NaN => NaN
  end.

(** [x.sqrt()]: the root of a negative number is not a number. *)
Definition nsqrt (x : num) : num :=
  match x with
  | Fin a => if Rle_lt_dec 0 a then Fin (sqrt a) else NaN
  | NaN => NaN
  end.

(** [within tol x y]: both finite and [|x - y| <= tol]. *)
Definition within (tol : R) (x y : num) : Prop :=
  match x, y with
  | Fin a, Fin b => Rabs (a - b) <= tol
  | _, _ => False
  end.

Definition tensor : Type := list num.

Definition of_reals (l : list R) : tensor := map Fin l.

(** [x[i]] for a Python integer [i]: a negative index counts from the
    end, an index outside [-len, len) raises. *)
Definition getitem (x : tensor) (i : Z) : result num :=
  let n := Z.of_nat (length x) in
  let j := if (i <? 0)%Z then (i + n)%Z else i in
  if ((j <? 0)%Z || (n <=? j)%Z)%bool then Raise IndexError
  else match nth_error x (Z.to_nat j) with
       | Some v => Ok v
       | None => Raise IndexError
       end.

(** [torch.zeros((n,))] *)
Definition zeros (n : nat) : tensor := repeat (Fin 0) n.

(** [torch.cat((x, y))] *)
Definition cat (x y : tensor) : tensor := x ++ y.

(** [torch.linspace(start, end, steps)]: [steps] points from [start] to
    [end], the i-th being [start + i * (end - start) / (steps - 1)];
    a single point is [start]; a negative count is rejected. *)
Definition linspace (start stop : R) (steps : Z) : result tensor :=
  if (steps <? 0)%Z then Raise RuntimeError
  else if (steps =? 1)%Z then Ok [Fin start]
  else
    let step := ndiv (nsub (Fin stop) (Fin start)) (Fin (IZR (steps - 1))) in
    Ok (map (fun i => nadd (Fin start) (nmul (Fin (INR i)) step))
            (seq 0 (Z.to_nat steps))).

(** Product of all the elements. *)
Definition prod (x : tensor) : num := fold_left nmul x (Fin 1).

(** [torch.cumprod(x, dim = 0)]: [y_i = x_0 * x_1 * ... * x_i], each
    entry being the product of a prefix of [x]. *)
Definition cumprod (x : tensor) : tensor :=
  map (fun i => prod (firstn (S i) x)) (seq 0 (length x)).

(** [c - x] and [x.sqrt()], elementwise. *)
Definition rsub (c : R) (x : tensor) : tensor := map (nsub (Fin c)) x.
Definition tsqrt (x : tensor) : tensor := map nsqrt x.

(** [torch.isclose]: [|a - b| <= atol + rtol * |b|].  A non-finite value
    is close to nothing here: torch accepts two equal infinities, which
    [NaN] does not tell apart from the other non-finite values. *)
Definition isclose (rtol atol : R) (a b : num) : Prop :=
  match a, b with
  | Fin u, Fin v => Rabs (u - v) <= atol + rtol * Rabs v
  | _, _ => False
  end.

(** [torch.allclose(x, y, rtol, atol)] on tensors of one shape. *)
Definition allclose (rtol atol : R) (x y : tensor) : Prop :=
  Forall2 (isclose rtol atol) x y.

Definition default_rtol : R := 1 / 100000.
Definition default_atol : R := 1 / 100000000.

End Torch.
Import Torch.

Declare Scope num_scope.
Delimit Scope num_scope with num.
Bind Scope num_scope with num.
Infix "+" := nadd : num_scope.
Infix "-" := nsub : num_scope.
Infix "*" := nmul : num_scope.
Infix "/" := ndiv : num_scope.

Local Open Scope py_scope.

(* ===================================================================== *)
(** ** tests/test_dp_ddpm.py: the reference computations *)
(* ===================================================================== *)

(** The functions of the test module on tensors without rounding.  The
    indexing, the failures and the propagation of non-finite values are
    those of the code; a finite value is the exact one, which the
    binary32 result of the code approaches only where nothing cancels.
    The same functions on binary32 tensors are in [F32]. *)
Module TestDpDdpm.

(** [gen_beta_schedule(beta1, betaT, T)]: a zero followed by the [T]
    points of [torch.linspace(beta1, betaT, T)]. *)
Definition gen_beta_schedule (beta1 betaT : R) (T : Z) : result tensor :=
  result <- linspace beta1 betaT T ;;
  let result0 := zeros 1 in
  Ok (cat result0 result).

Definition alpha_from_beta (beta : tensor) : tensor := rsub 1 beta.

Definition calc_alpha_bar (alpha : tensor) : tensor := cumprod alpha.

Definition calc_forward_scale (alpha_bar : tensor) : tensor := tsqrt alpha_bar.

Definition calc_forward_var (alpha_bar : tensor) : tensor := rsub 1 alpha_bar.

Definition calc_imu (alpha alpha_bar beta : tensor) (t : Z) (x0 : R)
  : result (num * num) :=
  a_t <- getitem alpha t ;;
  ab_p <- getitem alpha_bar (t - 1) ;;
  ab_t <- getitem alpha_bar t ;;
  b_t <- getitem beta t ;;
  let scale := (nsqrt a_t * (Fin 1 - ab_p) / (Fin 1 - ab_t))%num in
  let bias := (nsqrt ab_p * b_t / (Fin 1 - ab_t) * Fin x0)%num in
  Ok (scale, bias).

Definition calc_imu_eps_parts (alpha alpha_bar beta : tensor) (t : Z)
  : result (num * num) :=
  a_t <- getitem alpha t ;;
  b_t <- getitem beta t ;;
  ab_t <- getitem alpha_bar t ;;
  let p0 := (Fin 1 / nsqrt a_t)%num in
  let p1 := (nneg b_t / (nsqrt a_t * nsqrt (Fin 1 - ab_t)))%num in
  Ok (p0, p1).

Definition calc_ivar (alpha alpha_bar beta : tensor) (t : Z) : result num :=
  ab_p <- getitem alpha_bar (t - 1) ;;
  ab_t <- getitem alpha_bar t ;;
  b_t <- getitem beta t ;;
  Ok ((Fin 1 - ab_p) / (Fin 1 - ab_t) * b_t)%num.

End TestDpDdpm.
Import TestDpDdpm.

(* ===================================================================== *)
(** ** The variance schedule *)
(* ===================================================================== *)

(** Modelled from the spec: the schedule object of section 3, whose class
    is defined in jetgen/diffusion, not among the sources.  The tests read
    its fields [var] and [scale]. *)
Record VarianceSchedule : Type := {
  vs_beta : tensor;
  vs_scale : tensor;
  vs_var : tensor
}.

(** Modelled from the spec: the linear interpolation of section 4.1.
    The point of index [t] (in [1..T]) of the line from [beta_low] at
    index 1 to [beta_high] at index [T]; a line of one point is its
    start. *)
Definition interpolate (beta_low beta_high : R) (T t : nat) : R :=
  match T with
  | 1%nat => beta_low
  | _ => beta_low + (beta_high - beta_low) * (INR (t - 1) / INR (T - 1))
  end.

(** Modelled from the spec: the range check on a bound (section 4.1),
    with both ends of the unit interval allowed. *)
Definition in_unit_interval (x : R) : bool :=
  if Rlt_dec x 0 then false else if Rlt_dec 1 x then false else true.

(** Modelled from the spec: [generate_linear_schedule] is defined in
    jetgen/diffusion/vsched.py, which is not among the sources.  The
    sentinel [beta[0] = 0] and the interpolation over indices [1..T] are
    those of section 4.1, [scale = sqrt(1 - beta)] and [var = beta] those
    of section 3, and a negative [T] or a bound outside the unit interval
    is a [ConfigurationError] (sections 4.1 and 7).  [test_linear_schedule]
    calls the function with [beta_low = 1] and with
    [beta_low > beta_high] and compares the schedule it returns with
    [gen_beta_schedule], so these two inputs are interpolated like any
    other. *)
Definition generate_linear_schedule (T : Z) (beta_low beta_high : R)
  : result VarianceSchedule :=
  if (T <? 0)%Z then Raise ConfigurationError
  else if negb (in_unit_interval beta_low && in_unit_interval beta_high)
  then Raise ConfigurationError
  else
    let n := Z.to_nat T in
    let beta := of_reals (0 :: map (interpolate beta_low beta_high n) (seq 1 n)) in
    Ok {| vs_beta := beta;
          vs_scale := tsqrt (rsub 1 beta);
          vs_var := beta |}.

(** The failure clause of section 4.1, word for word: which inputs the
    specification wants rejected. *)
Definition spec_rejects (T : Z) (beta_low beta_high : R) : Prop :=
  beta_low > beta_high
  \/ ~ (0 <= beta_low < 1) \/ ~ (0 <= beta_high < 1)
  \/ (T < 0)%Z.

(* ===================================================================== *)
(** ** The diffusion engine *)
(* ===================================================================== *)

(** Modelled from the spec: the records of section 3, whose classes are
    defined in jetgen/diffusion, not among the sources.  The tests read
    [_fwd_p_jumps.scale] and [_fwd_p_jumps.var]. *)
Record ForwardJumpProbability : Type := {
  fj_scale : tensor;
  fj_var : tensor
}.

Record DDPM : Type := {
  schedule : VarianceSchedule;
  seed : Z;
  device : String.string;
  alpha : tensor;
  alpha_bar : tensor;
  _fwd_p_jumps : ForwardJumpProbability
}.

(** Modelled from the spec: the running product of section 4.2, in
    increasing index order, one multiplication per entry, carried in an
    accumulator. *)
Fixpoint running_product (acc : num) (x : tensor) : tensor :=
  match x with
  | [] => []
  | a :: x' => let acc' := (acc * a)%num in acc' :: running_product acc' x'
  end.

(** Modelled from the spec: the class [DDPM] is defined in
    jetgen/diffusion/ddpm.py, which is not among the sources.  Section
    4.2: construction derives [alpha = 1 - beta], [alpha_bar] as a running
    product, and the forward-jump arrays [sqrt(alpha_bar)] and
    [1 - alpha_bar], once. *)
Definition new (vsched : VarianceSchedule) (seed : Z) (device : String.string)
  : DDPM :=
  let alpha := rsub 1 (vs_beta vsched) in
  let alpha_bar := running_product (Fin 1) alpha in
  {| schedule := vsched;
     seed := seed;
     device := device;
     alpha := alpha;
     alpha_bar := alpha_bar;
     _fwd_p_jumps := {| fj_scale := tsqrt alpha_bar;
                        fj_var := rsub 1 alpha_bar |} |}.

(** Modelled from the spec: the horizon [T] of an engine, whose schedule
    has [T + 1] entries (section 3). *)
Definition horizon (e : DDPM) : Z :=
  (Z.of_nat (length (vs_beta (schedule e))) - 1)%Z.

(** Modelled from the spec: section 4.2, [forward_jump_params(t)] reads
    the cached pair; [t] outside [[0, T]] is an [IndexError]. *)
Definition forward_jump_params (e : DDPM) (t : Z) : result (num * num) :=
  if ((t <? 0)%Z || (horizon e <? t)%Z)%bool then Raise IndexError
  else
    s <- getitem (fj_scale (_fwd_p_jumps e)) t ;;
    v <- getitem (fj_var (_fwd_p_jumps e)) t ;;
    Ok (s, v).

(* ===================================================================== *)
(** ** The posterior computations in binary32 *)
(* ===================================================================== *)

(** The tensors of the tests hold binary32 values.  [spec_float] with a
    mantissa of 24 bits and infinities at exponent 128 is that format;
    its operations round to nearest, ties to even. *)
Module F32.

Definition prec : Z := 24.
Definition emax : Z := 128.

Definition f32 : Type := spec_float.

(** [m * 2^e], rounded to binary32. *)
Definition of_pow2 (m e : Z) : f32 := binary_normalize prec emax m e false.

Definition zero : f32 := S754_zero false.
Definition one : f32 := of_pow2 1 0.

Definition sub : f32 -> f32 -> f32 := SFsub prec emax.
Definition mul : f32 -> f32 -> f32 := SFmul prec emax.
Definition div : f32 -> f32 -> f32 := SFdiv prec emax.
Definition sqrt : f32 -> f32 := SFsqrt prec emax.
Definition neg : f32 -> f32 := SFopp.
Definition ltb : f32 -> f32 -> bool := SFltb.

Definition is_finite (x : f32) : bool :=
  match x with
  | S754_zero _ | S754_finite _ _ _ => true
  | S754_infinity _ | S754_nan => false
  end.

Definition is_zero (x : f32) : bool :=
  match x with
  | S754_zero _ => true
  | _ => false
  end.

(** The real number a finite value stands for. *)
Definition to_R (x : f32) : option R :=
  match x with
  | S754_zero _ => Some 0
  | S754_finite s m e =>
      Some ((if s then -1 else 1) * IZR (Zpos m) * powerRZ 2 e)
  | S754_infinity _ | S754_nan => None
  end.

(** [within tol a b]: both finite and [|a - b| <= tol]. *)
Definition within (tol : R) (a b : f32) : Prop :=
  match to_R a, to_R b with
  | Some u, Some v => Rabs (u - v) <= tol
  | _, _ => False
  end.

Definition tensor : Type := list f32.

(** [x[i]], as [Torch.getitem]. *)
Definition getitem (x : tensor) (i : Z) : result f32 :=
  let n := Z.of_nat (length x) in
  let j := if (i <? 0)%Z then (i + n)%Z else i in
  if ((j <? 0)%Z || (n <=? j)%Z)%bool then Raise IndexError
  else match nth_error x (Z.to_nat j) with
       | Some v => Ok v
       | None => Raise IndexError
       end.

(** [torch.cumprod(x, dim = 0)]: a running product that starts from 1,
    each entry being the product so far.  The product is kept in
    binary32; a kernel that keeps it in a wider format and rounds each
    entry to binary32 returns the same entries wherever the products are
    representable, which is the case of every tensor evaluated below. *)
Fixpoint cumprod_from (acc : f32) (x : tensor) : tensor :=
  match x with
  | [] => []
  | a :: x' => let acc' := mul acc a in acc' :: cumprod_from acc' x'
  end.

Definition cumprod (x : tensor) : tensor := cumprod_from one x.

(** [c - x] and [x.sqrt()], elementwise. *)
Definition rsub (c : f32) (x : tensor) : tensor := map (sub c) x.
Definition tsqrt (x : tensor) : tensor := map sqrt x.

(** The reference computations of tests/test_dp_ddpm.py, line for line
    as in [TestDpDdpm]. *)
Definition alpha_from_beta (beta : tensor) : tensor := rsub one beta.

Definition calc_alpha_bar (alpha : tensor) : tensor := cumprod alpha.

Definition calc_forward_scale (alpha_bar : tensor) : tensor := tsqrt alpha_bar.

Definition calc_forward_var (alpha_bar : tensor) : tensor := rsub one alpha_bar.

Definition calc_imu (alpha alpha_bar beta : tensor) (t : Z) (x0 : f32)
  : result (f32 * f32) :=
  a_t <- getitem alpha t ;;
  ab_p <- getitem alpha_bar (t - 1) ;;
  ab_t <- getitem alpha_bar t ;;
  b_t <- getitem beta t ;;
  let scale := div (mul (sqrt a_t) (sub one ab_p)) (sub one ab_t) in
  let bias := mul (div (mul (sqrt ab_p) b_t) (sub one ab_t)) x0 in
  Ok (scale, bias).

Definition calc_imu_eps_parts (alpha alpha_bar beta : tensor) (t : Z)
  : result (f32 * f32) :=
  a_t <- getitem alpha t ;;
  b_t <- getitem beta t ;;
  ab_t <- getitem alpha_bar t ;;
  let p0 := div one (sqrt a_t) in
  let p1 := div (neg b_t) (mul (sqrt a_t) (sqrt (sub one ab_t))) in
  Ok (p0, p1).

Definition calc_ivar (alpha alpha_bar beta : tensor) (t : Z) : result f32 :=
  ab_p <- getitem alpha_bar (t - 1) ;;
  ab_t <- getitem alpha_bar t ;;
  b_t <- getitem beta t ;;
  Ok (mul (div (sub one ab_p) (sub one ab_t)) b_t).

(** The binary32 values nearest to [1e-4], the first step of the schedule
    of [test_ddpm_fwd_p_jump] and [test_ddpm_bkw_p_step], and to [1e-8]. *)
Definition beta_1e4 : f32 := of_pow2 13743895 (-37).
Definition beta_1e8 : f32 := of_pow2 11258999 (-50).


(** Modelled from the spec: the engine of section 4.2, which keeps the
    beta sequence of its schedule, its seed and device, and the arrays
    [alpha] and [alpha_bar] derived at construction.  The class [DDPM] is
    defined in jetgen/diffusion/ddpm.py, not among the sources. *)
Record DDPM : Type := {
  vs_beta : tensor;
  seed : Z;
  device : String.string;
  alpha : tensor;
  alpha_bar : tensor
}.

(** Modelled from the spec: section 4.2, construction, from the beta
    sequence of the schedule: [alpha = 1 - beta] and [alpha_bar] its
    cumulative product in increasing index order, computed once. *)
Definition new (beta : tensor) (seed : Z) (device : String.string) : DDPM :=
  let alpha := rsub one beta in
  {| vs_beta := beta;
     seed := seed;
     device := device;
     alpha := alpha;
     alpha_bar := cumprod alpha |}.

(** Modelled from the spec: the horizon [T] of an engine, whose schedule
    has [T + 1] entries (section 3). *)
Definition horizon (e : DDPM) : Z := (Z.of_nat (length (vs_beta e)) - 1)%Z.




End F32.

(* ===================================================================== *)
(** ** tests/test_dp_ddpm.py: the test cases *)
(* ===================================================================== *)

(** A test case is the proposition that its assertions hold; a call that
    raises fails the test.  The functions under test are imported from
    jetgen.diffusion, so each test takes them as arguments. *)
Module TestDDPM.

Definition beta1_list : list R := [0; 1 / 10000; 1].
Definition betaT_list : list R := [1 / 100; 2 / 100; 1].
Definition T_list : list Z := [0; 1; 10; 1000]%Z.

(** [itertools.product(beta1_list, betaT_list, T_list)] *)
Definition search_space : list (R * R * Z) :=
  list_prod (list_prod beta1_list betaT_list) T_list.

Definition linear_schedule_case
    (generate : Z -> R -> R -> result VarianceSchedule)
    (point : R * R * Z) : Prop :=
  let '(beta1, betaT, T) := point in
  match gen_beta_schedule beta1 betaT T with
  | Raise _ => False
  | Ok sched_step_null =>
      let scale_step_null := tsqrt (rsub 1 sched_step_null) in
      let var_step_null := sched_step_null in
      match generate T beta1 betaT with
      | Raise _ => False
      | Ok p_steps =>
          allclose default_rtol default_atol var_step_null (vs_var p_steps)
          /\ allclose default_rtol default_atol scale_step_null (vs_scale p_steps)
      end
  end.

Definition test_linear_schedule
    (generate : Z -> R -> R -> result VarianceSchedule) : Prop :=
  Forall (linear_schedule_case generate) search_space.

Definition test_ddpm_fwd_p_jump
    (generate : Z -> R -> R -> result VarianceSchedule)
    (ddpm_new : VarianceSchedule -> Z -> String.string -> DDPM) : Prop :=
  let beta1 := 1 / 10000 in
  let betaT := 1 / 10 in
  let T := 10%Z in
  match gen_beta_schedule beta1 betaT T with
  | Raise _ => False
  | Ok beta =>
      let alpha := alpha_from_beta beta in
      let alpha_bar := calc_alpha_bar alpha in
      let scale_null := calc_forward_scale alpha_bar in
      let var_null := calc_forward_var alpha_bar in
      match generate T beta1 betaT with
      | Raise _ => False
      | Ok vsched =>
          let ddpm := ddpm_new vsched 0%Z "cpu"%string in
          let p_jumps := _fwd_p_jumps ddpm in
          allclose default_rtol default_atol scale_null (fj_scale p_jumps)
          /\ allclose default_rtol (1 / 1000000) var_null (fj_var p_jumps)
      end
  end.

End TestDDPM.

(* ===================================================================== *)
(** ** jetgen/models/funcs.py *)
(* ===================================================================== *)

Module Funcs.

Section DefaultModelInit.

(** Models and devices are references to objects; the objects themselves
    live in a store that the collaborators read and update. *)
Variables Model Device WeightInit Other Store : Type.

Record ModelConfig : Type := {
  weight_init : WeightInit;
  spectr_norm : bool;
  other_fields : Other
}.

(** The three imported collaborators.  Each may raise; [init_weights] and
    [apply_sn] act on the model in place and their value is dropped. *)
Variable prepare_model : Model -> Device -> Store -> result (Model * Store).
Variable init_weights : Model -> WeightInit -> Store -> result Store.
Variable apply_sn : Model -> Store -> result Store.

(** The calls made so far, oldest first. *)
Inductive call : Type :=
| PrepareModel (model : Model) (device : Device)
| InitWeights (model : Model) (config : WeightInit)
| ApplySn (model : Model).

Definition state : Type := (Store * list call)%type.
Definition M (A : Type) : Type := state -> result (A * state).

Definition ret {A : Type} (a : A) : M A := fun s => Ok (a, s).

Definition mbind {A B : Type} (m : M A) (k : A -> M B) : M B :=
  fun s => match m s with
           | Ok (a, s') => k a s'
           | Raise e => Raise e
           end.

Definition call_prepare_model (model : Model) (device : Device) : M Model :=
  fun '(st, log) =>
    match prepare_model model device st with
    | Ok (m, st') => Ok (m, (st', log ++ [PrepareModel model device]))
    | Raise e => Raise e
    end.

Definition call_init_weights (model : Model) (config : WeightInit) : M unit :=
  fun '(st, log) =>
    match init_weights model config st with
    | Ok st' => Ok (tt, (st', log ++ [InitWeights model config]))
    | Raise e => Raise e
    end.

Definition call_apply_sn (model : Model) : M unit :=
  fun '(st, log) =>
    match apply_sn model st with
    | Ok st' => Ok (tt, (st', log ++ [ApplySn model]))
    | Raise e => Raise e
    end.

Definition default_model_init
    (model : Model) (model_config : ModelConfig) (device : Device) : M Model :=
  mbind (call_prepare_model model device) (fun model =>
  mbind (call_init_weights model (weight_init model_config)) (fun _ =>
  mbind (if spectr_norm model_config then call_apply_sn model else ret tt)
        (fun _ =>
  ret model))).

End DefaultModelInit.

Arguments weight_init {WeightInit Other} _.
Arguments spectr_norm {WeightInit Other} _.
Arguments other_fields {WeightInit Other} _.
Arguments PrepareModel {Model Device WeightInit} model device.
Arguments InitWeights {Model Device WeightInit} model config.
Arguments ApplySn {Model Device WeightInit} model.
Arguments default_model_init {Model Device WeightInit Other Store}
  prepare_model init_weights apply_sn model model_config device _.

End Funcs.

(* ===================================================================== *)
(** ** Closed forms on reals *)
(* ===================================================================== *)

(** The formulas of sections 3, 4.3 and 4.4 written on the real beta
    sequence [bs] (sentinel included): what [calc_imu], [calc_ivar] and
    [calc_imu_eps_parts] compute when nothing is rounded. *)
Module Closed.

(** [alpha[t] = 1 - beta[t]] *)
Definition alpha (bs : list R) (t : nat) : R := 1 - nth t bs 0.

(** [alpha_bar[t] = product(alpha[0..t])], recomputed from scratch for
    each [t]. *)
Definition alpha_bar (bs : list R) (t : nat) : R :=
  fold_left Rmult (firstn (S t) (map (fun b => 1 - b) bs)) 1.

(** The scale and bias of [calc_imu] and the variance of [calc_ivar],
    the closed forms of section 4.3. *)
Definition posterior_scale (bs : list R) (t : nat) : R :=
  sqrt (alpha bs t) * (1 - alpha_bar bs (t - 1)) / (1 - alpha_bar bs t).

Definition posterior_bias (bs : list R) (t : nat) (x0 : R) : R :=
  sqrt (alpha_bar bs (t - 1)) * nth t bs 0 / (1 - alpha_bar bs t) * x0.

Definition posterior_var (bs : list R) (t : nat) : R :=
  (1 - alpha_bar bs (t - 1)) / (1 - alpha_bar bs t) * nth t bs 0.



End Closed.

(* ===================================================================== *)
(** ** Arithmetic on tensor elements *)
(* ===================================================================== *)

Lemma ndiv_fin (a b : R) : b <> 0 -> (Fin a / Fin b)%num = Fin (a / b).
Proof.
  intros Hb. unfold ndiv. destruct (Req_dec_T b 0); [contradiction | reflexivity].
Qed.

Lemma ndiv_zero (a : R) : (Fin a / Fin 0)%num = NaN.
Proof.
  unfold ndiv. destruct (Req_dec_T 0 0); [reflexivity | congruence].
Qed.

Lemma nsqrt_fin (a : R) : 0 <= a -> nsqrt (Fin a) = Fin (sqrt a).
Proof.
  intros Ha. unfold nsqrt. destruct (Rle_lt_dec 0 a); [reflexivity | lra].
Qed.

Lemma nmul_assoc (x y z : num) : (x * (y * z))%num = (x * y * z)%num.
Proof.
  destruct x, y, z; unfold nmul; simpl; try reflexivity.
  now rewrite Rmult_assoc.
Qed.

Lemma within_refl (tol a : R) : 0 <= tol -> within tol (Fin a) (Fin a).
Proof.
  intros Ht. simpl. replace (a - a) with 0 by ring. now rewrite Rabs_R0.
Qed.

Lemma isclose_refl (rtol atol a : R) :
  0 <= rtol -> 0 <= atol -> isclose rtol atol (Fin a) (Fin a).
Proof.
  intros Hr Ha. simpl. replace (a - a) with 0 by ring. rewrite Rabs_R0.
  pose proof (Rabs_pos a). nra.
Qed.

Lemma allclose_refl (rtol atol : R) (l : list R) :
  0 <= rtol -> 0 <= atol -> allclose rtol atol (of_reals l) (of_reals l).
Proof.
  intros Hr Ha. unfold allclose, of_reals.
  induction l as [|a l IH]; simpl; constructor; auto using isclose_refl.
Qed.

(* ===================================================================== *)
(** ** Indexing *)
(* ===================================================================== *)

Lemma getitem_nat (x : tensor) (t : nat) (v : num) :
  nth_error x t = Some v -> getitem x (Z.of_nat t) = Ok v.
Proof.
  intros H. unfold getitem.
  assert (Hlt : (t < length x)%nat) by (apply nth_error_Some; congruence).
  destruct (Z.ltb_spec (Z.of_nat t) 0); [lia |].
  destruct (Z.ltb_spec (Z.of_nat t) 0); [lia |].
  destruct (Z.leb_spec (Z.of_nat (length x)) (Z.of_nat t)); [lia |].
  simpl. now rewrite Nat2Z.id, H.
Qed.

Lemma getitem_pred (x : tensor) (t : nat) (v : num) :
  (1 <= t)%nat -> nth_error x (t - 1) = Some v ->
  getitem x (Z.of_nat t - 1) = Ok v.
Proof.
  intros Ht H. replace (Z.of_nat t - 1)%Z with (Z.of_nat (t - 1)) by lia.
  now apply getitem_nat.
Qed.

Lemma nth_error_of_reals (l : list R) (t : nat) :
  (t < length l)%nat -> nth_error (of_reals l) t = Some (Fin (nth t l 0)).
Proof.
  intros H. unfold of_reals.
  rewrite nth_error_map, (nth_error_nth' l 0 H). reflexivity.
Qed.

Lemma getitem_of_reals (l : list R) (t : nat) :
  (t < length l)%nat -> getitem (of_reals l) (Z.of_nat t) = Ok (Fin (nth t l 0)).
Proof.
  intros H. now apply getitem_nat, nth_error_of_reals.
Qed.

Lemma length_of_reals (l : list R) : length (of_reals l) = length l.
Proof. apply length_map. Qed.

Lemma rsub_of_reals (c : R) (l : list R) :
  rsub c (of_reals l) = of_reals (map (fun b => c - b) l).
Proof.
  unfold rsub, of_reals. rewrite !map_map. reflexivity.
Qed.

Lemma tsqrt_of_reals (l : list R) :
  Forall (fun a => 0 <= a) l -> tsqrt (of_reals l) = of_reals (map sqrt l).
Proof.
  unfold tsqrt, of_reals. induction 1 as [|a l Ha _ IH]; cbn [map].
  - reflexivity.
  - rewrite (nsqrt_fin a Ha). now rewrite IH.
Qed.

(* ===================================================================== *)
(** ** Cumulative products *)
(* ===================================================================== *)

Lemma firstn_snoc {A : Type} (l : list A) (n : nat) (d : A) :
  (n < length l)%nat -> firstn (S n) l = firstn n l ++ [nth n l d].
Proof.
  revert n. induction l as [|a l IH]; intros n Hn; simpl in Hn; [lia |].
  destruct n as [|n]; [reflexivity |].
  cbn [firstn nth app]. simpl. f_equal. apply IH. lia.
Qed.

Lemma fold_left_nmul_fin (l : list R) (a : R) :
  fold_left nmul (of_reals l) (Fin a) = Fin (fold_left Rmult l a).
Proof.
  revert a. induction l as [|b l IH]; intros a; simpl; [reflexivity |].
  apply IH.
Qed.

(** The accumulator of the running product holds, at each index, the
    product of the prefix read so far. *)
Lemma running_product_prefix (x : tensor) (acc : num) :
  running_product acc x
  = map (fun i => fold_left nmul (firstn (S i) x) acc) (seq 0 (length x)).
Proof.
  revert acc. induction x as [|a x IH]; intros acc; [reflexivity |].
  cbn [running_product length seq map]. f_equal.
  rewrite IH, <- seq_shift, map_map. reflexivity.
Qed.

Lemma running_product_cumprod (x : tensor) :
  running_product (Fin 1) x = cumprod x.
Proof. apply running_product_prefix. Qed.

Lemma cumprod_of_reals (l : list R) :
  cumprod (of_reals l)
  = of_reals (map (fun i => fold_left Rmult (firstn (S i) l) 1)
                  (seq 0 (length l))).
Proof.
  unfold cumprod, prod. rewrite length_of_reals.
  unfold of_reals at 2. rewrite map_map.
  apply map_ext. intros i.
  unfold of_reals. rewrite firstn_map. apply fold_left_nmul_fin.
Qed.

Lemma calc_alpha_bar_of_reals (bs : list R) :
  calc_alpha_bar (alpha_from_beta (of_reals bs))
  = of_reals (map (Closed.alpha_bar bs) (seq 0 (length bs))).
Proof.
  unfold calc_alpha_bar, alpha_from_beta.
  rewrite rsub_of_reals, cumprod_of_reals, length_map. reflexivity.
Qed.

Lemma nth_error_tabulate (f : nat -> R) (n t : nat) :
  (t < n)%nat -> nth_error (of_reals (map f (seq 0 n))) t = Some (Fin (f t)).
Proof.
  intros H. unfold of_reals. rewrite map_map, nth_error_map.
  rewrite nth_error_seq. destruct (Nat.ltb_spec t n); [reflexivity | lia].
Qed.

(* ===================================================================== *)
(** ** The cumulative product of a valid beta sequence *)
(* ===================================================================== *)

Section AlphaBar.

Variable bs : list R.
Hypothesis bs_valid : Forall (fun b => 0 < b < 1) bs.

Lemma beta_range (t : nat) :
  (1 <= t <= length bs)%nat -> 0 < nth t (0 :: bs) 0 < 1.
Proof.
  intros Ht. destruct t as [|t]; [lia |]. cbn [nth].
  rewrite Forall_forall in bs_valid. apply bs_valid, nth_In. lia.
Qed.

Lemma alpha_bar_0 : Closed.alpha_bar (0 :: bs) 0 = 1.
Proof. unfold Closed.alpha_bar. simpl. ring. Qed.

Lemma alpha_bar_S (t : nat) :
  (S t <= length bs)%nat ->
  Closed.alpha_bar (0 :: bs) (S t)
  = Closed.alpha_bar (0 :: bs) t * (1 - nth (S t) (0 :: bs) 0).
Proof.
  intros Ht. unfold Closed.alpha_bar.
  set (al := map (fun b => 1 - b) (0 :: bs)).
  assert (Hlen : (S t < length al)%nat) by (unfold al; rewrite length_map; simpl; lia).
  rewrite (firstn_snoc al (S t) 0 Hlen), fold_left_app. cbn [fold_left].
  f_equal. rewrite (nth_indep al 0 (1 - 0) Hlen). unfold al.
  now rewrite (map_nth (fun b => 1 - b)).
Qed.

Lemma alpha_bar_pos (t : nat) :
  (t <= length bs)%nat -> 0 < Closed.alpha_bar (0 :: bs) t <= 1.
Proof.
  induction t as [|t IH]; intros Ht.
  - rewrite alpha_bar_0. lra.
  - rewrite alpha_bar_S by assumption.
    pose proof (beta_range (S t) ltac:(lia)).
    specialize (IH ltac:(lia)). nra.
Qed.






End AlphaBar.

(* ===================================================================== *)
(** ** The reference computations on a valid beta sequence *)
(* ===================================================================== *)

Section Reference.

Variable bs : list R.
Hypothesis bs_valid : Forall (fun b => 0 < b < 1) bs.

Local Abbreviation beta := (of_reals (0 :: bs)).
Local Abbreviation alpha := (alpha_from_beta (of_reals (0 :: bs))).
Local Abbreviation alpha_bar := (calc_alpha_bar (alpha_from_beta (of_reals (0 :: bs)))).

Lemma get_beta (t : nat) :
  (t <= length bs)%nat ->
  getitem beta (Z.of_nat t) = Ok (Fin (nth t (0 :: bs) 0)).
Proof. intros Ht. apply getitem_of_reals. simpl. lia. Qed.

Lemma get_alpha (t : nat) :
  (t <= length bs)%nat ->
  getitem alpha (Z.of_nat t) = Ok (Fin (Closed.alpha (0 :: bs) t)).
Proof.
  intros Ht. unfold alpha_from_beta. rewrite rsub_of_reals.
  rewrite getitem_of_reals by (rewrite length_map; simpl; lia).
  do 2 f_equal. unfold Closed.alpha.
  rewrite (nth_indep _ 0 (1 - 0)) by (rewrite length_map; simpl; lia).
  now rewrite (map_nth (fun b => 1 - b)).
Qed.

Lemma nth_error_alpha_bar (t : nat) :
  (t <= length bs)%nat ->
  nth_error alpha_bar t = Some (Fin (Closed.alpha_bar (0 :: bs) t)).
Proof.
  intros Ht. rewrite calc_alpha_bar_of_reals.
  apply nth_error_tabulate. simpl. lia.
Qed.

Lemma get_alpha_bar (t : nat) :
  (t <= length bs)%nat ->
  getitem alpha_bar (Z.of_nat t) = Ok (Fin (Closed.alpha_bar (0 :: bs) t)).
Proof. intros Ht. now apply getitem_nat, nth_error_alpha_bar. Qed.

Lemma get_alpha_bar_pred (t : nat) :
  (1 <= t <= length bs)%nat ->
  getitem alpha_bar (Z.of_nat t - 1)
  = Ok (Fin (Closed.alpha_bar (0 :: bs) (t - 1))).
Proof.
  intros Ht. apply getitem_pred; [lia |]. apply nth_error_alpha_bar. lia.
Qed.

End Reference.

(* ===================================================================== *)
(** ** The engine on a valid beta sequence *)
(* ===================================================================== *)

Lemma engine_alpha (vsched : VarianceSchedule) (sd : Z) (dev : string) :
  alpha (new vsched sd dev) = alpha_from_beta (vs_beta vsched).
Proof. reflexivity. Qed.

(** The running product of the engine is the cumulative product of the
    reference. *)
Lemma engine_alpha_bar (vsched : VarianceSchedule) (sd : Z) (dev : string) :
  alpha_bar (new vsched sd dev)
  = calc_alpha_bar (alpha_from_beta (vs_beta vsched)).
Proof.
  unfold new, calc_alpha_bar, alpha_from_beta. cbn [alpha_bar].
  apply running_product_cumprod.
Qed.

Lemma engine_fwd_scale (vsched : VarianceSchedule) (sd : Z) (dev : string) :
  fj_scale (_fwd_p_jumps (new vsched sd dev))
  = calc_forward_scale (calc_alpha_bar (alpha_from_beta (vs_beta vsched))).
Proof.
  rewrite <- engine_alpha_bar with (sd := sd) (dev := dev). reflexivity.
Qed.

Lemma engine_fwd_var (vsched : VarianceSchedule) (sd : Z) (dev : string) :
  fj_var (_fwd_p_jumps (new vsched sd dev))
  = calc_forward_var (calc_alpha_bar (alpha_from_beta (vs_beta vsched))).
Proof.
  rewrite <- engine_alpha_bar with (sd := sd) (dev := dev). reflexivity.
Qed.

Lemma engine_horizon (vsched : VarianceSchedule) (sd : Z) (dev : string)
    (bs : list R) :
  vs_beta vsched = of_reals (0 :: bs) ->
  horizon (new vsched sd dev) = Z.of_nat (length bs).
Proof.
  intros H. unfold horizon. cbn [schedule new]. rewrite H, length_of_reals.
  simpl length. lia.
Qed.

Section Engine.

Variable bs : list R.
Hypothesis bs_valid : Forall (fun b => 0 < b < 1) bs.
Variable vsched : VarianceSchedule.
Hypothesis vsched_beta : vs_beta vsched = of_reals (0 :: bs).
Variables (sd : Z) (dev : string).

Lemma forward_jump_params_closed (t : nat) :
  (t <= length bs)%nat ->
  forward_jump_params (new vsched sd dev) (Z.of_nat t)
  = Ok (Fin (sqrt (Closed.alpha_bar (0 :: bs) t)),
        Fin (1 - Closed.alpha_bar (0 :: bs) t)).
Proof.
  intros Ht. unfold forward_jump_params.
  rewrite (engine_horizon vsched sd dev bs vsched_beta).
  destruct (Z.ltb_spec (Z.of_nat t) 0); [lia |].
  destruct (Z.ltb_spec (Z.of_nat (length bs)) (Z.of_nat t)); [lia |].
  cbn [orb]. rewrite engine_fwd_scale, engine_fwd_var, vsched_beta.
  pose proof (alpha_bar_pos bs bs_valid t Ht) as Hp.
  assert (Hab := nth_error_alpha_bar bs t Ht).
  unfold calc_forward_scale, calc_forward_var, tsqrt, rsub.
  rewrite (getitem_nat _ t (nsqrt (Fin (Closed.alpha_bar (0 :: bs) t))))
    by (rewrite nth_error_map, Hab; reflexivity).
  rewrite (getitem_nat _ t (Fin 1 - Fin (Closed.alpha_bar (0 :: bs) t))%num)
    by (rewrite nth_error_map, Hab; reflexivity).
  cbn [bind]. rewrite nsqrt_fin by lra. reflexivity.
Qed.

End Engine.

(* ===================================================================== *)
(** ** Binary32 arithmetic *)
(* ===================================================================== *)


Lemma f32_getitem_nat (x : F32.tensor) (t : nat) (v : F32.f32) :
  nth_error x t = Some v -> F32.getitem x (Z.of_nat t) = Ok v.
Proof.
  intros H. unfold F32.getitem.
  assert (Hlt : (t < length x)%nat) by (apply nth_error_Some; congruence).
  destruct (Z.ltb_spec (Z.of_nat t) 0); [lia |].
  destruct (Z.ltb_spec (Z.of_nat t) 0); [lia |].
  destruct (Z.leb_spec (Z.of_nat (length x)) (Z.of_nat t)); [lia |].
  simpl. now rewrite Nat2Z.id, H.
Qed.



(** A division by zero is never finite: [x / 0] is an infinity, and
    [0 / 0], [inf / 0] and [nan / 0] are as non-finite. *)
Lemma f32_div_zero_not_finite (x : F32.f32) (s : bool) :
  F32.is_finite (F32.div x (S754_zero s)) = false.
Proof. destruct x; reflexivity. Qed.

Lemma f32_mul_not_finite (x y : F32.f32) :
  F32.is_finite x = false -> F32.is_finite (F32.mul x y) = false.
Proof. destruct x, y; intros H; try discriminate; reflexivity. Qed.

Lemma f32_mul_zero_r (x : F32.f32) (s : bool) :
  F32.is_finite x = true -> exists s', F32.mul x (S754_zero s) = S754_zero s'.
Proof. destruct x; intros H; try discriminate; eexists; reflexivity. Qed.

Lemma f32_mul_zero_l (x : F32.f32) (s : bool) :
  F32.is_finite x = true -> exists s', F32.mul (S754_zero s) x = S754_zero s'.
Proof. destruct x; intros H; try discriminate; eexists; reflexivity. Qed.

Lemma f32_div_zero_l (x : F32.f32) (s : bool) :
  F32.is_finite x = true -> F32.is_zero x = false ->
  exists s', F32.div (S754_zero s) x = S754_zero s'.
Proof. destruct x; intros H H0; try discriminate; eexists; reflexivity. Qed.



Lemma f32_sub_one_zero : F32.sub F32.one F32.zero = F32.one.
Proof. vm_compute. reflexivity. Qed.

Lemma f32_mul_one_one : F32.mul F32.one F32.one = F32.one.
Proof. vm_compute. reflexivity. Qed.

Lemma f32_sub_one_one : F32.sub F32.one F32.one = F32.zero.
Proof. vm_compute. reflexivity. Qed.

Lemma f32_sqrt_one : F32.sqrt F32.one = F32.one.
Proof. vm_compute. reflexivity. Qed.

(** The constants are the binary32 values nearest to [1e-4] and [1e-8]:
    each is within half a unit in the last place of the decimal. *)
Lemma f32_beta_1e4_value :
  exists u : R,
    F32.to_R F32.beta_1e4 = Some u /\ Rabs (u - 1 / 10000) <= / 2 ^ 38.
Proof.
  exists (13743895 * / 2 ^ 37). split.
  - change F32.beta_1e4 with (S754_finite false 13743895 (-37)).
    cbn [F32.to_R]. f_equal. change (powerRZ 2 (-37)) with (/ 2 ^ 37). ring.
  - replace (2 ^ 37) with 137438953472 by (simpl; lra).
    replace (2 ^ 38) with 274877906944 by (simpl; lra).
    apply Rabs_le. lra.
Qed.

Lemma f32_beta_1e8_value :
  exists u : R,
    F32.to_R F32.beta_1e8 = Some u /\ Rabs (u - 1 / 100000000) <= / 2 ^ 51.
Proof.
  exists (11258999 * / 2 ^ 50). split.
  - change F32.beta_1e8 with (S754_finite false 11258999 (-50)).
    cbn [F32.to_R]. f_equal. change (powerRZ 2 (-50)) with (/ 2 ^ 50). ring.
  - replace (2 ^ 50) with 1125899906842624 by (simpl; lra).
    replace (2 ^ 51) with 2251799813685248 by (simpl; lra).
    apply Rabs_le. lra.
Qed.

(* ===================================================================== *)
(** ** Backward posterior *)
(* ===================================================================== *)

(** The entries read at [t = 1] behind a zero sentinel. *)
Lemma f32_reference_at_1 (b1 : F32.f32) (rest : F32.tensor) :
  F32.getitem (F32.alpha_from_beta (F32.zero :: b1 :: rest)) 1
  = Ok (F32.sub F32.one b1)
  /\ F32.getitem
       (F32.calc_alpha_bar (F32.alpha_from_beta (F32.zero :: b1 :: rest))) 0
     = Ok F32.one
  /\ F32.getitem
       (F32.calc_alpha_bar (F32.alpha_from_beta (F32.zero :: b1 :: rest))) 1
     = Ok (F32.mul F32.one (F32.sub F32.one b1))
  /\ F32.getitem (F32.zero :: b1 :: rest) 1 = Ok b1.
Proof.
  unfold F32.calc_alpha_bar, F32.cumprod, F32.alpha_from_beta, F32.rsub.
  cbn [map F32.cumprod_from]. rewrite f32_sub_one_zero, f32_mul_one_one.
  repeat split;
    first [now apply (f32_getitem_nat _ 1) | now apply (f32_getitem_nat _ 0)].
Qed.

Section AtStepOne.

Variable b1 : F32.f32.
Variable rest : F32.tensor.

Local Abbreviation beta := (F32.zero :: b1 :: rest).
Local Abbreviation alpha := (F32.alpha_from_beta (F32.zero :: b1 :: rest)).
Local Abbreviation alpha_bar :=
  (F32.calc_alpha_bar (F32.alpha_from_beta (F32.zero :: b1 :: rest))).
(** [1 - alpha_bar[1]], the denominator at [t = 1]. *)
Local Abbreviation den :=
  (F32.sub F32.one (F32.mul F32.one (F32.sub F32.one b1))).

Lemma f32_calc_imu_at_1 (x0 : F32.f32) :
  F32.calc_imu alpha alpha_bar beta 1 x0
  = Ok (F32.div (F32.mul (F32.sqrt (F32.sub F32.one b1)) F32.zero) den,
        F32.mul (F32.div (F32.mul F32.one b1) den) x0).
Proof.
  destruct (f32_reference_at_1 b1 rest) as [Ga [Gab0 [Gab1 Gb]]].
  unfold F32.calc_imu. change (1 - 1)%Z with 0%Z.
  rewrite Ga, Gab0, Gab1, Gb. cbn [bind].
  now rewrite f32_sub_one_one, f32_sqrt_one.
Qed.

Lemma f32_calc_ivar_at_1 :
  F32.calc_ivar alpha alpha_bar beta 1
  = Ok (F32.mul (F32.div F32.zero den) b1).
Proof.
  destruct (f32_reference_at_1 b1 rest) as [Ga [Gab0 [Gab1 Gb]]].
  unfold F32.calc_ivar. change (1 - 1)%Z with 0%Z.
  rewrite Gab0, Gab1, Gb. cbn [bind].
  now rewrite f32_sub_one_one.
Qed.




End AtStepOne.




(** Without rounding the closed forms at [t = 1] are [(0, x0, 0)] for
    every [beta[1]] other than 0: [1 - alpha_bar[0]] is 0 and
    [1 - alpha_bar[1]] is [beta[1]]. *)
Lemma closed_posterior_at_t1 (b1 x0 : R) (rest : list R) :
  b1 <> 0 ->
  Closed.posterior_scale (0 :: b1 :: rest) 1 = 0
  /\ Closed.posterior_bias (0 :: b1 :: rest) 1 x0 = x0
  /\ Closed.posterior_var (0 :: b1 :: rest) 1 = 0.
Proof.
  intros Hb.
  unfold Closed.posterior_scale, Closed.posterior_bias, Closed.posterior_var,
    Closed.alpha_bar, Closed.alpha.
  cbn [Nat.sub firstn map fold_left nth].
  replace (1 * (1 - 0)) with 1 by ring. rewrite sqrt_1.
  replace (1 - 1 * (1 - b1)) with b1 by ring.
  repeat split; field; exact Hb.
Qed.

(** C2, the claim as stated fails.  On the schedule of
    [test_ddpm_bkw_p_step], whose first two entries are 0 and [1e-4], the
    reference bias at [t = 1], [x0 = 1/2] is [16774432 * 2^-25], about
    0.49992 and not [x0]: in binary32 [1 - (1 - beta[1])] is not
    [beta[1]].  And with [beta[1] = 1e-8], strictly between 0 and 1, the
    denominator [1 - alpha_bar[1]] is 0 and the reference is
    [(nan, inf)] with variance [nan]. *)
Lemma C2_counterexample :
  F32.ltb F32.zero F32.beta_1e4 = true
  /\ F32.ltb F32.beta_1e4 F32.one = true
  /\ (forall rest : F32.tensor,
        F32.calc_imu
          (F32.alpha_from_beta (F32.zero :: F32.beta_1e4 :: rest))
          (F32.calc_alpha_bar
             (F32.alpha_from_beta (F32.zero :: F32.beta_1e4 :: rest)))
          (F32.zero :: F32.beta_1e4 :: rest) 1 (F32.of_pow2 1 (-1))
        = Ok (F32.zero, F32.of_pow2 16774432 (-25)))
  /\ F32.ltb (F32.of_pow2 16774432 (-25)) (F32.of_pow2 1 (-1)) = true
  /\ F32.ltb F32.zero F32.beta_1e8 = true
  /\ F32.ltb F32.beta_1e8 F32.one = true
  /\ (forall (rest : F32.tensor) (x0 : F32.f32),
        F32.ltb F32.zero x0 = true -> F32.is_finite x0 = true ->
        F32.calc_imu
          (F32.alpha_from_beta (F32.zero :: F32.beta_1e8 :: rest))
          (F32.calc_alpha_bar
             (F32.alpha_from_beta (F32.zero :: F32.beta_1e8 :: rest)))
          (F32.zero :: F32.beta_1e8 :: rest) 1 x0
        = Ok (S754_nan, S754_infinity false))
  /\ (forall rest : F32.tensor,
        F32.calc_ivar
          (F32.alpha_from_beta (F32.zero :: F32.beta_1e8 :: rest))
          (F32.calc_alpha_bar
             (F32.alpha_from_beta (F32.zero :: F32.beta_1e8 :: rest)))
          (F32.zero :: F32.beta_1e8 :: rest) 1
        = Ok S754_nan).
Proof.
  split; [vm_compute; reflexivity |]. split; [vm_compute; reflexivity |].
  split; [intros rest; rewrite f32_calc_imu_at_1; vm_compute; reflexivity |].
  split; [vm_compute; reflexivity |].
  split; [vm_compute; reflexivity |]. split; [vm_compute; reflexivity |].
  split.
  - intros rest x0 Hpos Hfin. rewrite f32_calc_imu_at_1.
    change (F32.div (F32.mul (F32.sqrt (F32.sub F32.one F32.beta_1e8)) F32.zero)
              (F32.sub F32.one (F32.mul F32.one (F32.sub F32.one F32.beta_1e8))))
      with S754_nan.
    change (F32.div (F32.mul F32.one F32.beta_1e8)
              (F32.sub F32.one (F32.mul F32.one (F32.sub F32.one F32.beta_1e8))))
      with (S754_infinity false).
    destruct x0 as [[|] | [|] | | [|] m e]; try discriminate; reflexivity.
  - intros rest. rewrite f32_calc_ivar_at_1. vm_compute. reflexivity.
Qed.

(** C2, as amended.  At [t = 1] behind the zero sentinel, [alpha_bar[0]]
    is exactly 1 and [alpha_bar[1]] is the rounded [1 - beta[1]].  For a
    finite [beta[1]] whose [1 - beta[1]] has a finite root: when the
    denominator [1 - alpha_bar[1]] is finite and not zero, the reference
    scale and variance are exactly zero and the bias is
    [beta[1] / (1 - alpha_bar[1]) * x0], which is [x0] only where the
    rounded [1 - (1 - beta[1])] gives [beta[1]] back; when the
    denominator is zero, scale and variance are [nan] and the bias is not
    finite. *)
Theorem C2_posterior_at_t1_binary32 :
  forall (b1 x0 : F32.f32) (rest : F32.tensor),
    F32.is_finite b1 = true ->
    F32.is_finite (F32.sqrt (F32.sub F32.one b1)) = true ->
    F32.getitem
      (F32.calc_alpha_bar (F32.alpha_from_beta (F32.zero :: b1 :: rest))) 0
    = Ok F32.one
    /\ F32.getitem
         (F32.calc_alpha_bar (F32.alpha_from_beta (F32.zero :: b1 :: rest))) 1
       = Ok (F32.mul F32.one (F32.sub F32.one b1))
    /\ (F32.is_finite
          (F32.sub F32.one (F32.mul F32.one (F32.sub F32.one b1))) = true ->
        F32.is_zero
          (F32.sub F32.one (F32.mul F32.one (F32.sub F32.one b1))) = false ->
        exists s s' : bool,
          F32.calc_imu
            (F32.alpha_from_beta (F32.zero :: b1 :: rest))
            (F32.calc_alpha_bar (F32.alpha_from_beta (F32.zero :: b1 :: rest)))
            (F32.zero :: b1 :: rest) 1 x0
          = Ok (S754_zero s,
                F32.mul
                  (F32.div (F32.mul F32.one b1)
                     (F32.sub F32.one (F32.mul F32.one (F32.sub F32.one b1))))
                  x0)
          /\ F32.calc_ivar
               (F32.alpha_from_beta (F32.zero :: b1 :: rest))
               (F32.calc_alpha_bar
                  (F32.alpha_from_beta (F32.zero :: b1 :: rest)))
               (F32.zero :: b1 :: rest) 1
             = Ok (S754_zero s'))
    /\ (F32.is_zero
          (F32.sub F32.one (F32.mul F32.one (F32.sub F32.one b1))) = true ->
        exists bias : F32.f32,
          F32.calc_imu
            (F32.alpha_from_beta (F32.zero :: b1 :: rest))
            (F32.calc_alpha_bar (F32.alpha_from_beta (F32.zero :: b1 :: rest)))
            (F32.zero :: b1 :: rest) 1 x0
          = Ok (S754_nan, bias)
          /\ F32.is_finite bias = false
          /\ F32.calc_ivar
               (F32.alpha_from_beta (F32.zero :: b1 :: rest))
               (F32.calc_alpha_bar
                  (F32.alpha_from_beta (F32.zero :: b1 :: rest)))
               (F32.zero :: b1 :: rest) 1
             = Ok S754_nan).
Proof.
  intros b1 x0 rest Hb1 Hsq.
  destruct (f32_reference_at_1 b1 rest) as [_ [Gab0 [Gab1 _]]].
  split; [exact Gab0 |]. split; [exact Gab1 |].
  rewrite f32_calc_imu_at_1, f32_calc_ivar_at_1.
  set (den := F32.sub F32.one (F32.mul F32.one (F32.sub F32.one b1))).
  destruct (f32_mul_zero_r _ false Hsq) as [s1 Hs1].
  fold F32.zero in Hs1. rewrite Hs1.
  split.
  - intros Hfin Hnz.
    destruct (f32_div_zero_l den s1 Hfin Hnz) as [s2 Hs2].
    destruct (f32_div_zero_l den false Hfin Hnz) as [s3 Hs3].
    fold F32.zero in Hs3. rewrite Hs2, Hs3.
    destruct (f32_mul_zero_l b1 s3 Hb1) as [s4 Hs4]. rewrite Hs4.
    exists s2, s4. split; reflexivity.
  - intros Hz. destruct den as [sd | | |] eqn:Eden; try discriminate.
    eexists. split; [| split].
    + reflexivity.
    + apply f32_mul_not_finite, f32_div_zero_not_finite.
    + reflexivity.
Qed.

(** The theorem at [beta = [0, 1/2]], [x0 = 3]: the posterior is
    [(0, 3, 0)], since [1 - (1 - 1/2)] is exactly [1/2]. *)
Lemma C2_witness :
  exists s s' : bool,
    F32.calc_imu
      (F32.alpha_from_beta [F32.zero; F32.of_pow2 1 (-1)])
      (F32.calc_alpha_bar (F32.alpha_from_beta [F32.zero; F32.of_pow2 1 (-1)]))
      [F32.zero; F32.of_pow2 1 (-1)] 1 (F32.of_pow2 3 0)
    = Ok (S754_zero s, F32.of_pow2 3 0)
    /\ F32.calc_ivar
         (F32.alpha_from_beta [F32.zero; F32.of_pow2 1 (-1)])
         (F32.calc_alpha_bar
            (F32.alpha_from_beta [F32.zero; F32.of_pow2 1 (-1)]))
         [F32.zero; F32.of_pow2 1 (-1)] 1
       = Ok (S754_zero s').
Proof.
  apply (C2_posterior_at_t1_binary32 (F32.of_pow2 1 (-1)) (F32.of_pow2 3 0) []).
  - reflexivity.
  - reflexivity.
  - reflexivity.
  - reflexivity.
Defined.

(* ===================================================================== *)
(** ** Forward jumps *)
(* ===================================================================== *)

(** C3.  On a valid beta sequence the cached forward-jump parameters are
    [scale[t] = sqrt(alpha_bar[t])] and [var[t] = 1 - alpha_bar[t]] for
    every [t] in [[0, T]], where [alpha_bar[t]] is the product of
    [alpha[0..t]] recomputed from scratch and [alpha_bar[0] = 1]; the
    cached arrays are those of the reference recomputation
    ([calc_alpha_bar], [calc_forward_scale], [calc_forward_var]). *)
Theorem C3_forward_jump_params :
  forall (vsched : VarianceSchedule) (sd : Z) (dev : string)
         (bs : list R) (t : nat),
    vs_beta vsched = of_reals (0 :: bs) ->
    Forall (fun b => 0 < b < 1) bs ->
    (t <= length bs)%nat ->
    forward_jump_params (new vsched sd dev) (Z.of_nat t)
    = Ok (Fin (sqrt (Closed.alpha_bar (0 :: bs) t)),
          Fin (1 - Closed.alpha_bar (0 :: bs) t))
    /\ Closed.alpha_bar (0 :: bs) 0 = 1
    /\ alpha_bar (new vsched sd dev)
       = calc_alpha_bar (alpha_from_beta (vs_beta vsched))
    /\ fj_scale (_fwd_p_jumps (new vsched sd dev))
       = calc_forward_scale (calc_alpha_bar (alpha_from_beta (vs_beta vsched)))
    /\ fj_var (_fwd_p_jumps (new vsched sd dev))
       = calc_forward_var (calc_alpha_bar (alpha_from_beta (vs_beta vsched))).
Proof.
  intros vsched sd dev bs t Hbeta Hvalid Ht. split.
  - now apply forward_jump_params_closed.
  - split; [apply alpha_bar_0 |].
    split; [apply engine_alpha_bar |].
    split; [apply engine_fwd_scale | apply engine_fwd_var].
Qed.

(** The forward jump of the one-step schedule [[0, 1/2]] at [t = 1]. *)
Lemma C3_witness :
  forward_jump_params
    (new {| vs_beta := of_reals [0; 1 / 2];
            vs_scale := tsqrt (rsub 1 (of_reals [0; 1 / 2]));
            vs_var := of_reals [0; 1 / 2] |} 0%Z "cpu") (Z.of_nat 1)
  = Ok (Fin (sqrt (Closed.alpha_bar [0; 1 / 2] 1)),
        Fin (1 - Closed.alpha_bar [0; 1 / 2] 1)).
Proof.
  apply (C3_forward_jump_params
           {| vs_beta := of_reals [0; 1 / 2];
              vs_scale := tsqrt (rsub 1 (of_reals [0; 1 / 2]));
              vs_var := of_reals [0; 1 / 2] |} 0%Z "cpu" [1 / 2] 1%nat).
  - reflexivity.
  - constructor; [lra | constructor].
  - simpl. lia.
Defined.




(* ===================================================================== *)
(** ** The two forms of the reverse mean *)
(* ===================================================================== *)





(* ===================================================================== *)
(** ** The linear schedule *)
(* ===================================================================== *)

Lemma in_unit_interval_spec (x : R) :
  in_unit_interval x = true <-> 0 <= x <= 1.
Proof.
  unfold in_unit_interval.
  destruct (Rlt_dec x 0); [split; [discriminate | lra] |].
  destruct (Rlt_dec 1 x); [split; [discriminate | lra] |].
  split; [lra | reflexivity].
Qed.

(** The points of [torch.linspace], behind the zero sentinel, are the
    points of the interpolation line. *)
Lemma gen_beta_schedule_interpolate (beta1 betaT : R) (T : Z) :
  (0 <= T)%Z ->
  gen_beta_schedule beta1 betaT T
  = Ok (of_reals (0 :: map (interpolate beta1 betaT (Z.to_nat T))
                          (seq 1 (Z.to_nat T)))).
Proof.
  intros HT. unfold gen_beta_schedule, linspace.
  destruct (Z.ltb_spec T 0); [lia |].
  destruct (Z.eqb_spec T 1) as [-> | Hne]; [reflexivity |].
  cbn [bind zeros repeat cat app of_reals map nsub nlift2]. do 2 f_equal.
  assert (Hz : IZR (T - 1) <> 0) by (apply not_0_IZR; lia).
  rewrite ndiv_fin by assumption.
  rewrite <- seq_shift, !map_map. apply map_ext_in.
  intros i Hi. apply in_seq in Hi. cbn [nmul nadd nlift2]. f_equal.
  assert (Hn : (2 <= Z.to_nat T)%nat) by lia.
  assert (Hinr : INR (Z.to_nat T - 1) = IZR (T - 1)).
  { rewrite INR_IZR_INZ. f_equal. lia. }
  unfold interpolate.
  destruct (Z.to_nat T) as [|[|n]] eqn:En; [lia | lia |].
  rewrite Hinr. replace (S i - 1)%nat with i by lia.
  field. assumption.
Qed.

Lemma interpolate_range (lo hi : R) (n t : nat) :
  0 <= lo <= 1 -> 0 <= hi <= 1 -> (1 <= t <= n)%nat ->
  0 <= interpolate lo hi n t <= 1.
Proof.
  intros Hlo Hhi Ht. unfold interpolate.
  destruct n as [|[|n]]; [lia | lra |].
  set (m := S (S n)) in *.
  assert (Hm : 0 < INR (m - 1)) by (apply lt_0_INR; unfold m; lia).
  assert (Hle : INR (t - 1) <= INR (m - 1)) by (apply le_INR; lia).
  assert (H0 : 0 <= INR (t - 1)) by apply pos_INR.
  assert (Hr : 0 <= INR (t - 1) / INR (m - 1) <= 1).
  { split.
    - apply Rmult_le_pos; [assumption | left; now apply Rinv_0_lt_compat].
    - apply (Rmult_le_reg_r (INR (m - 1))); [assumption |].
      unfold Rdiv. rewrite Rmult_assoc, Rinv_l by lra. lra. }
  nra.
Qed.

Lemma interpolate_first (lo hi : R) (n : nat) :
  (1 <= n)%nat -> interpolate lo hi n 1 = lo.
Proof.
  intros Hn. unfold interpolate. destruct n as [|[|n]]; [lia | reflexivity |].
  cbn [Nat.sub INR]. unfold Rdiv. ring.
Qed.

Lemma interpolate_last (lo hi : R) (n : nat) :
  (2 <= n)%nat -> interpolate lo hi n n = hi.
Proof.
  intros Hn. unfold interpolate. destruct n as [|[|n]]; [lia | lia |].
  assert (Hm : INR (S (S n) - 1) <> 0) by (apply not_0_INR; lia).
  field. assumption.
Qed.

Lemma schedule_betas_in_unit (lo hi : R) (n : nat) :
  0 <= lo <= 1 -> 0 <= hi <= 1 ->
  Forall (fun a => 0 <= a)
         (map (fun b => 1 - b) (0 :: map (interpolate lo hi n) (seq 1 n))).
Proof.
  intros Hlo Hhi. apply Forall_forall. intros a Ha.
  apply in_map_iff in Ha. destruct Ha as [b [<- [<- | Hb]]]; [lra |].
  apply in_map_iff in Hb. destruct Hb as [t [<- Ht]]. apply in_seq in Ht.
  pose proof (interpolate_range lo hi n t Hlo Hhi ltac:(lia)). lra.
Qed.

Lemma generate_linear_schedule_ok (T : Z) (lo hi : R) :
  (0 <= T)%Z -> 0 <= lo <= 1 -> 0 <= hi <= 1 ->
  generate_linear_schedule T lo hi
  = Ok {| vs_beta := of_reals (0 :: map (interpolate lo hi (Z.to_nat T))
                                       (seq 1 (Z.to_nat T)));
          vs_scale :=
            of_reals (map sqrt
                          (map (fun b => 1 - b)
                               (0 :: map (interpolate lo hi (Z.to_nat T))
                                         (seq 1 (Z.to_nat T)))));
          vs_var := of_reals (0 :: map (interpolate lo hi (Z.to_nat T))
                                      (seq 1 (Z.to_nat T))) |}.
Proof.
  intros HT Hlo Hhi. unfold generate_linear_schedule.
  destruct (Z.ltb_spec T 0); [lia |].
  rewrite (proj2 (in_unit_interval_spec lo) Hlo).
  rewrite (proj2 (in_unit_interval_spec hi) Hhi). cbn [andb negb].
  rewrite rsub_of_reals, tsqrt_of_reals by now apply schedule_betas_in_unit.
  reflexivity.
Qed.

(** C4.  For every non-negative [T] and bounds in the unit interval,
    [generate_linear_schedule(T, beta_low, beta_high)] returns sequences
    [beta], [scale] and [var] of length [T + 1] with [beta[0] = 0],
    [beta[1..T]] on the line from [beta_low] to [beta_high] (the points
    of [gen_beta_schedule]), [scale[t] = sqrt(1 - beta[t])] and
    [var[t] = beta[t]]; for [T = 0] the schedule is the sentinel alone. *)
Theorem C4_linear_schedule :
  forall (T : nat) (beta_low beta_high : R),
    0 <= beta_low <= 1 -> 0 <= beta_high <= 1 ->
    exists p : VarianceSchedule,
      generate_linear_schedule (Z.of_nat T) beta_low beta_high = Ok p
      /\ length (vs_beta p) = S T
      /\ length (vs_scale p) = S T
      /\ length (vs_var p) = S T
      /\ getitem (vs_beta p) 0 = Ok (Fin 0)
      /\ gen_beta_schedule beta_low beta_high (Z.of_nat T) = Ok (vs_beta p)
      /\ (forall t : nat, (t <= T)%nat ->
          exists b : R,
            getitem (vs_beta p) (Z.of_nat t) = Ok (Fin b)
            /\ getitem (vs_scale p) (Z.of_nat t) = Ok (Fin (sqrt (1 - b)))
            /\ getitem (vs_var p) (Z.of_nat t) = Ok (Fin b)
            /\ ((1 <= t)%nat -> T = 1%nat -> b = beta_low)
            /\ ((1 <= t)%nat -> (2 <= T)%nat ->
                b = beta_low
                    + INR (t - 1) * ((beta_high - beta_low) / INR (T - 1))))
      /\ (T = 0%nat -> vs_beta p = [Fin 0]).
Proof.
  intros T lo hi Hlo Hhi. eexists. split.
  - apply generate_linear_schedule_ok; [lia | assumption | assumption].
  - rewrite Nat2Z.id. cbn [vs_beta vs_scale vs_var].
    set (bs := map (interpolate lo hi T) (seq 1 T)).
    assert (Hlen : length bs = T) by (unfold bs; now rewrite length_map, length_seq).
    split; [rewrite length_of_reals; simpl; lia |].
    split; [rewrite length_of_reals, !length_map; simpl; lia |].
    split; [rewrite length_of_reals; simpl; lia |].
    split; [reflexivity |].
    split.
    { rewrite gen_beta_schedule_interpolate by lia. now rewrite Nat2Z.id. }
    split.
    + intros t Ht. exists (nth t (0 :: bs) 0).
      split; [apply getitem_of_reals; simpl; lia |].
      split.
      { rewrite getitem_of_reals by (rewrite !length_map; simpl; lia).
        do 2 f_equal.
        rewrite (nth_indep _ 0 (sqrt (1 - 0))) by (rewrite !length_map; simpl; lia).
        now rewrite (map_nth sqrt), (map_nth (fun b => 1 - b)). }
      split; [apply getitem_of_reals; simpl; lia |].
      assert (Hnth : (1 <= t)%nat -> nth t (0 :: bs) 0 = interpolate lo hi T t).
      { intros H1. destruct t as [|t]; [lia |]. cbn [nth]. unfold bs.
        rewrite (nth_indep _ 0 (interpolate lo hi T 0))
          by (rewrite length_map, length_seq; lia).
        rewrite map_nth, seq_nth by lia. reflexivity. }
      split.
      * intros H1 ->. now rewrite Hnth.
      * intros H1 H2. rewrite Hnth by assumption. unfold interpolate.
        destruct T as [|[|T]]; [lia | lia |].
        assert (INR (S (S T) - 1) <> 0) by (apply not_0_INR; lia).
        field. assumption.
    + intros ->. reflexivity.
Qed.

(** The schedule for [T = 0] has one entry. *)
Lemma C4_witness :
  exists p : VarianceSchedule,
    generate_linear_schedule (Z.of_nat 0) (1 / 10000) (1 / 10) = Ok p
    /\ length (vs_beta p) = 1%nat.
Proof.
  destruct (C4_linear_schedule 0 (1 / 10000) (1 / 10)) as [p [H1 [H2 _]]].
  - lra.
  - lra.
  - exists p. split; assumption.
Defined.

(** C9.  For [T = 1] the schedule is [beta = [0, beta_low]] whatever the
    bounds: the only point of the line is its start, and [beta_high]
    plays no part. *)
Theorem C9_single_step_schedule :
  forall beta_low beta_high : R,
    gen_beta_schedule beta_low beta_high 1 = Ok [Fin 0; Fin beta_low]
    /\ (forall beta_high' : R,
        gen_beta_schedule beta_low beta_high' 1
        = gen_beta_schedule beta_low beta_high 1)
    /\ match generate_linear_schedule 1 beta_low beta_high with
       | Ok p => vs_beta p = [Fin 0; Fin beta_low]
       | Raise e =>
           e = ConfigurationError
           /\ (in_unit_interval beta_low && in_unit_interval beta_high)%bool
              = false
       end.
Proof.
  intros lo hi. split; [reflexivity |]. split; [reflexivity |].
  unfold generate_linear_schedule. cbn [Z.ltb Z.compare].
  destruct (in_unit_interval lo && in_unit_interval hi)%bool; cbn [negb].
  - reflexivity.
  - split; reflexivity.
Qed.

(* ===================================================================== *)
(** ** The schedule and test_linear_schedule *)
(* ===================================================================== *)

Lemma search_space_in_unit (beta1 betaT : R) (T : Z) :
  In (beta1, betaT, T) TestDDPM.search_space ->
  0 <= beta1 <= 1 /\ 0 <= betaT <= 1 /\ (0 <= T)%Z.
Proof.
  unfold TestDDPM.search_space. intros H.
  apply in_prod_iff in H. destruct H as [H HT].
  apply in_prod_iff in H. destruct H as [H1 H2].
  unfold TestDDPM.beta1_list, TestDDPM.betaT_list, TestDDPM.T_list in *.
  cbn [In] in *.
  repeat split;
    repeat match goal with
           | H : _ \/ _ |- _ => destruct H
           | H : False |- _ => contradiction
           | H : _ = _ |- _ => subst
           end; try lra; try lia.
Qed.

Lemma linear_schedule_case_ok (beta1 betaT : R) (T : Z) :
  0 <= beta1 <= 1 -> 0 <= betaT <= 1 -> (0 <= T)%Z ->
  TestDDPM.linear_schedule_case generate_linear_schedule (beta1, betaT, T).
Proof.
  intros H1 H2 HT. unfold TestDDPM.linear_schedule_case.
  rewrite gen_beta_schedule_interpolate by assumption.
  rewrite generate_linear_schedule_ok by assumption.
  cbn [vs_var vs_scale].
  rewrite rsub_of_reals, tsqrt_of_reals by now apply schedule_betas_in_unit.
  split; apply allclose_refl; unfold default_rtol, default_atol; lra.
Qed.

(** The schedule generator passes [test_linear_schedule]. *)
Lemma generate_linear_schedule_passes_test :
  TestDDPM.test_linear_schedule generate_linear_schedule.
Proof.
  unfold TestDDPM.test_linear_schedule. apply Forall_forall.
  intros [[beta1 betaT] T] Hin.
  destruct (search_space_in_unit beta1 betaT T Hin) as [H1 [H2 HT]].
  now apply linear_schedule_case_ok.
Qed.

(** Whatever passes [test_linear_schedule] returns a schedule at every
    point of the test's grid. *)
Lemma test_linear_schedule_returns
    (generate : Z -> R -> R -> result VarianceSchedule)
    (beta1 betaT : R) (T : Z) :
  TestDDPM.test_linear_schedule generate ->
  In (beta1, betaT, T) TestDDPM.search_space ->
  exists p : VarianceSchedule, generate T beta1 betaT = Ok p.
Proof.
  intros Htest Hin. unfold TestDDPM.test_linear_schedule in Htest.
  rewrite Forall_forall in Htest. specialize (Htest _ Hin).
  unfold TestDDPM.linear_schedule_case in Htest.
  destruct (gen_beta_schedule beta1 betaT T); [| contradiction].
  destruct (generate T beta1 betaT) as [p |]; [| contradiction].
  now exists p.
Qed.

(** C6, as stated, fails: at [T = 10], [beta_low = 1],
    [beta_high = 0.01] the lower bound exceeds the upper one and lies
    outside [[0, 1)], yet the generator returns a schedule, as does every
    function that passes [test_linear_schedule], whose grid contains this
    point. *)
Lemma C6_counterexample :
  spec_rejects 10 1 (1 / 100)
  /\ 1 > 1 / 100
  /\ ~ 0 <= 1 < 1
  /\ (exists p : VarianceSchedule,
        generate_linear_schedule 10 1 (1 / 100) = Ok p
        /\ getitem (vs_beta p) 1 = Ok (Fin 1)
        /\ getitem (vs_beta p) 10 = Ok (Fin (1 / 100)))
  /\ (forall generate : Z -> R -> R -> result VarianceSchedule,
        TestDDPM.test_linear_schedule generate ->
        exists p : VarianceSchedule, generate 10%Z 1 (1 / 100) = Ok p).
Proof.
  split; [left; lra |]. split; [lra |]. split; [lra |]. split.
  - eexists. split.
    + apply generate_linear_schedule_ok; [lia | lra | lra].
    + cbn [vs_beta]. change (Z.to_nat 10) with 10%nat.
      split.
      * rewrite (getitem_of_reals _ 1) by (simpl; lia).
        cbn [seq map nth]. do 2 f_equal. apply interpolate_first. lia.
      * rewrite (getitem_of_reals _ 10) by (simpl; lia).
        cbn [seq map nth]. do 2 f_equal. apply interpolate_last. lia.
  - intros generate Htest.
    apply (test_linear_schedule_returns generate 1 (1 / 100) 10 Htest).
    unfold TestDDPM.search_space, TestDDPM.beta1_list, TestDDPM.betaT_list,
      TestDDPM.T_list.
    apply in_prod; [apply in_prod |]; cbn [In]; auto 6.
Qed.

(** C6, as amended.  Whatever passes [test_linear_schedule] signals no
    error at any point of the test's grid, which contains
    [beta_low > beta_high] and bounds equal to 1: it returns a schedule
    of [T + 1] entries whose [var] and [scale] are those of
    [gen_beta_schedule] on the bounds as given, within the tolerance of
    [torch.allclose]. *)
Theorem C6_test_grid_is_accepted :
  forall (generate : Z -> R -> R -> result VarianceSchedule)
         (beta1 betaT : R) (T : Z),
    TestDDPM.test_linear_schedule generate ->
    In (beta1, betaT, T) TestDDPM.search_space ->
    exists (p : VarianceSchedule) (beta : tensor),
      generate T beta1 betaT = Ok p
      /\ gen_beta_schedule beta1 betaT T = Ok beta
      /\ allclose default_rtol default_atol beta (vs_var p)
      /\ allclose default_rtol default_atol (tsqrt (rsub 1 beta)) (vs_scale p)
      /\ length (vs_var p) = S (Z.to_nat T)
      /\ length (vs_scale p) = S (Z.to_nat T).
Proof.
  intros generate beta1 betaT T Htest Hin.
  destruct (search_space_in_unit beta1 betaT T Hin) as [_ [_ HT]].
  unfold TestDDPM.test_linear_schedule in Htest.
  rewrite Forall_forall in Htest. specialize (Htest _ Hin).
  unfold TestDDPM.linear_schedule_case in Htest.
  rewrite gen_beta_schedule_interpolate in Htest |- * by assumption.
  destruct (generate T beta1 betaT) as [p |]; [| contradiction].
  destruct Htest as [Hvar Hscale].
  eexists. eexists. split; [reflexivity |]. split; [reflexivity |].
  split; [exact Hvar |]. split; [exact Hscale |].
  unfold allclose in Hvar, Hscale.
  apply Forall2_length in Hvar. apply Forall2_length in Hscale.
  unfold tsqrt, rsub in Hscale. rewrite !length_map in Hscale.
  rewrite length_of_reals in Hvar, Hscale.
  cbn [length] in Hvar, Hscale.
  rewrite length_map, length_seq in Hvar, Hscale.
  split; congruence.
Qed.

(** The theorem for the schedule generator at [T = 10], [beta_low = 1],
    [beta_high = 0.01]. *)
Lemma C6_witness :
  exists (p : VarianceSchedule) (beta : tensor),
    generate_linear_schedule 10 1 (1 / 100) = Ok p
    /\ gen_beta_schedule 1 (1 / 100) 10 = Ok beta
    /\ allclose default_rtol default_atol beta (vs_var p)
    /\ allclose default_rtol default_atol (tsqrt (rsub 1 beta)) (vs_scale p)
    /\ length (vs_var p) = 11%nat
    /\ length (vs_scale p) = 11%nat.
Proof.
  apply (C6_test_grid_is_accepted generate_linear_schedule 1 (1 / 100) 10).
  - exact generate_linear_schedule_passes_test.
  - unfold TestDDPM.search_space, TestDDPM.beta1_list, TestDDPM.betaT_list,
      TestDDPM.T_list.
    apply in_prod; [apply in_prod |]; cbn [In]; auto 6.
Defined.

(* ===================================================================== *)
(** ** The configuration T = 10, beta_low = 1e-4, beta_high = 0.1 *)
(* ===================================================================== *)

Lemma alpha_bar_last (bs : list R) :
  Closed.alpha_bar (0 :: bs) (length bs)
  = fold_left Rmult (map (fun b => 1 - b) bs) 1.
Proof.
  unfold Closed.alpha_bar.
  rewrite firstn_all2 by (rewrite length_map; simpl; lia).
  cbn [map fold_left]. f_equal. ring.
Qed.

Lemma interpolate_example (t : nat) :
  (1 <= t <= 10)%nat ->
  interpolate (1 / 10000) (1 / 10) 10 t
  = 1 / 10000 + IZR (Z.of_nat (t - 1)) * (111 / 10000).
Proof.
  intros Ht. unfold interpolate. rewrite !INR_IZR_INZ.
  change (Z.of_nat (10 - 1)) with 9%Z. field.
Qed.

Lemma example_schedule_entry (t : nat) :
  (1 <= t <= 10)%nat ->
  getitem (of_reals (0 :: map (interpolate (1 / 10000) (1 / 10) 10) (seq 1 10)))
          (Z.of_nat t)
  = Ok (Fin (1 / 10000 + IZR (Z.of_nat (t - 1)) * (111 / 10000))).
Proof.
  intros Ht. rewrite getitem_of_reals by (simpl; lia).
  do 2 f_equal. destruct t as [|t]; [lia |]. cbn [nth].
  rewrite (nth_indep _ 0 (interpolate (1 / 10000) (1 / 10) 10 0))
    by (rewrite length_map, length_seq; lia).
  rewrite map_nth, seq_nth by lia.
  now apply interpolate_example.
Qed.

(** C7, as stated, fails: in the schedule for [T = 10],
    [beta_low = 1e-4], [beta_high = 0.1] the entry [beta[5]] is [0.0445],
    more than [0.01] away from [0.055]. *)
Lemma C7_counterexample :
  exists (beta : tensor) (b5 : R),
    gen_beta_schedule (1 / 10000) (1 / 10) 10 = Ok beta
    /\ getitem beta 5 = Ok (Fin b5)
    /\ b5 = 445 / 10000
    /\ Rabs (b5 - 55 / 1000) > 1 / 100.
Proof.
  eexists. exists (445 / 10000). split.
  - now apply gen_beta_schedule_interpolate.
  - change (Z.to_nat 10) with 10%nat. split.
    + pose proof (example_schedule_entry 5 ltac:(lia)) as He.
      change (Z.of_nat 5) with 5%Z in He. rewrite He.
      do 2 f_equal. change (Z.of_nat (5 - 1)) with 4%Z. lra.
    + split; [reflexivity |].
      rewrite Rabs_left by lra. lra.
Qed.

(** C7, amended.  For [T = 10], [beta_low = 1e-4], [beta_high = 0.1] the
    interpolated schedule has [beta[0] = 0], [beta[10] = 0.1] and
    [beta[5] = 0.0445] (the value [0.0556], close to [0.055], is
    [beta[6]]), and [alpha_bar[10]] equals the direct product of
    [1 - beta[t]] over [t = 1..10] within [1e-6]. *)
Theorem C7_example_schedule :
  exists (beta : tensor) (ab10 : num),
    gen_beta_schedule (1 / 10000) (1 / 10) 10 = Ok beta
    /\ getitem beta 0 = Ok (Fin 0)
    /\ getitem beta 10 = Ok (Fin (1 / 10))
    /\ getitem beta 5 = Ok (Fin (445 / 10000))
    /\ getitem beta 6 = Ok (Fin (556 / 10000))
    /\ within (1 / 1000) (Fin (556 / 10000)) (Fin (55 / 1000))
    /\ getitem (calc_alpha_bar (alpha_from_beta beta)) 10 = Ok ab10
    /\ within (1 / 1000000) ab10 (prod (alpha_from_beta (skipn 1 beta))).
Proof.
  eexists. eexists. split.
  - now apply gen_beta_schedule_interpolate.
  - change (Z.to_nat 10) with 10%nat.
    set (bs := map (interpolate (1 / 10000) (1 / 10) 10) (seq 1 10)).
    split; [reflexivity |].
    split.
    { unfold bs. pose proof (example_schedule_entry 10 ltac:(lia)) as He.
      change (Z.of_nat 10) with 10%Z in He. rewrite He.
      do 2 f_equal. change (Z.of_nat (10 - 1)) with 9%Z. lra. }
    split.
    { unfold bs. pose proof (example_schedule_entry 5 ltac:(lia)) as He.
      change (Z.of_nat 5) with 5%Z in He. rewrite He.
      do 2 f_equal. change (Z.of_nat (5 - 1)) with 4%Z. lra. }
    split.
    { unfold bs. pose proof (example_schedule_entry 6 ltac:(lia)) as He.
      change (Z.of_nat 6) with 6%Z in He. rewrite He.
      do 2 f_equal. change (Z.of_nat (6 - 1)) with 5%Z. lra. }
    split.
    { cbn [within]. rewrite Rabs_right by lra. lra. }
    assert (Hlen : length bs = 10%nat)
      by (unfold bs; now rewrite length_map, length_seq).
    split.
    { change 10%Z with (Z.of_nat 10). apply get_alpha_bar. lia. }
    change (skipn 1 (of_reals (0 :: bs))) with (of_reals bs).
    unfold alpha_from_beta, prod. rewrite rsub_of_reals, fold_left_nmul_fin.
    rewrite <- Hlen, alpha_bar_last. apply within_refl. lra.
Qed.

(* ===================================================================== *)
(** ** default_model_init *)
(* ===================================================================== *)

Section DefaultModelInitFacts.

Variables Model Device WeightInit Other Store : Type.
Variable prepare_model : Model -> Device -> Store -> result (Model * Store).
Variable init_weights : Model -> WeightInit -> Store -> result Store.
Variable apply_sn : Model -> Store -> result Store.

Local Abbreviation run model cfg device st :=
  (Funcs.default_model_init prepare_model init_weights apply_sn
     model cfg device (st, [])).

(** What a run of [default_model_init] amounts to, call by call. *)
Lemma default_model_init_unfold
    (model : Model) (cfg : Funcs.ModelConfig WeightInit Other)
    (device : Device) (st : Store) :
  run model cfg device st
  = match prepare_model model device st with
    | Raise e => Raise e
    | Ok (m, st1) =>
        match init_weights m (Funcs.weight_init cfg) st1 with
        | Raise e => Raise e
        | Ok st2 =>
            if Funcs.spectr_norm cfg then
              match apply_sn m st2 with
              | Raise e => Raise e
              | Ok st3 =>
                  Ok (m, (st3, [Funcs.PrepareModel model device;
                                Funcs.InitWeights m (Funcs.weight_init cfg);
                                Funcs.ApplySn m]))
              end
            else
              Ok (m, (st2, [Funcs.PrepareModel model device;
                            Funcs.InitWeights m (Funcs.weight_init cfg)]))
        end
    end.
Proof.
  unfold Funcs.default_model_init, Funcs.mbind, Funcs.call_prepare_model,
    Funcs.call_init_weights, Funcs.call_apply_sn, Funcs.ret.
  destruct (prepare_model model device st) as [[m st1] | e]; [| reflexivity].
  destruct (init_weights m (Funcs.weight_init cfg) st1) as [st2 | e];
    [| reflexivity].
  destruct (Funcs.spectr_norm cfg); [| reflexivity].
  destruct (apply_sn m st2) as [st3 | e]; reflexivity.
Qed.

End DefaultModelInitFacts.

(** C10.  [default_model_init] returns the object that
    [prepare_model(model, device)] produced, after
    [init_weights(model, model_config.weight_init)] has been applied to
    it; [apply_sn] is applied to that object if and only if
    [model_config.spectr_norm] is true; and two configurations that agree
    on [weight_init] and [spectr_norm] lead to the same run. *)
Theorem C10_default_model_init :
  forall (Model Device WeightInit Other Store : Type)
         (prepare_model : Model -> Device -> Store -> result (Model * Store))
         (init_weights : Model -> WeightInit -> Store -> result Store)
         (apply_sn : Model -> Store -> result Store)
         (model : Model) (cfg : Funcs.ModelConfig WeightInit Other)
         (device : Device) (st : Store),
    (forall (m : Model) (st' : Store) (log : list (Funcs.call Model Device WeightInit)),
        Funcs.default_model_init prepare_model init_weights apply_sn
          model cfg device (st, []) = Ok (m, (st', log)) ->
        (exists st1 st2 : Store,
            prepare_model model device st = Ok (m, st1)
            /\ init_weights m (Funcs.weight_init cfg) st1 = Ok st2
            /\ (if Funcs.spectr_norm cfg then apply_sn m st2 = Ok st'
                else st' = st2))
        /\ (exists rest : list (Funcs.call Model Device WeightInit),
               log = Funcs.PrepareModel model device
                     :: Funcs.InitWeights m (Funcs.weight_init cfg) :: rest
               /\ (rest = [Funcs.ApplySn m] \/ rest = []))
        /\ (In (Funcs.ApplySn m) log <-> Funcs.spectr_norm cfg = true))
    /\ (forall (m : Model) (st1 st2 : Store),
          prepare_model model device st = Ok (m, st1) ->
          init_weights m (Funcs.weight_init cfg) st1 = Ok st2 ->
          if Funcs.spectr_norm cfg then
            match apply_sn m st2 with
            | Ok st3 =>
                exists log,
                  Funcs.default_model_init prepare_model init_weights apply_sn
                    model cfg device (st, []) = Ok (m, (st3, log))
            | Raise e =>
                Funcs.default_model_init prepare_model init_weights apply_sn
                  model cfg device (st, []) = Raise e
            end
          else
            exists log,
              Funcs.default_model_init prepare_model init_weights apply_sn
                model cfg device (st, []) = Ok (m, (st2, log)))
    /\ (forall cfg' : Funcs.ModelConfig WeightInit Other,
          Funcs.weight_init cfg' = Funcs.weight_init cfg ->
          Funcs.spectr_norm cfg' = Funcs.spectr_norm cfg ->
          Funcs.default_model_init prepare_model init_weights apply_sn
            model cfg' device (st, [])
          = Funcs.default_model_init prepare_model init_weights apply_sn
              model cfg device (st, [])).
Proof.
  intros Model Device WeightInit Other Store prepare_model init_weights
    apply_sn model cfg device st.
  split; [| split].
  - intros m st' log. rewrite default_model_init_unfold.
    destruct (prepare_model model device st) as [[m1 st1] | e]; [| discriminate].
    destruct (init_weights m1 (Funcs.weight_init cfg) st1) as [st2 | e] eqn:Ei;
      [| discriminate].
    destruct (Funcs.spectr_norm cfg) eqn:Es.
    + destruct (apply_sn m1 st2) as [st3 | e] eqn:Ea; [| discriminate].
      intros H. inversion H; subst; clear H.
      split; [exists st1, st2; repeat split; assumption |].
      split; [eexists; split; [reflexivity | left; reflexivity] |].
      split; [reflexivity | intros _; cbn [In]; auto].
    + intros H. inversion H; subst; clear H.
      split; [exists st1, st'; repeat split; assumption |].
      split; [eexists; split; [reflexivity | right; reflexivity] |].
      split; [| discriminate].
      cbn [In]. intros [H | [H | []]]; discriminate.
  - intros m st1 st2 Hp Hi. rewrite default_model_init_unfold, Hp, Hi.
    destruct (Funcs.spectr_norm cfg).
    + destruct (apply_sn m st2); [eexists; reflexivity | reflexivity].
    + eexists; reflexivity.
  - intros cfg' Hw Hs. rewrite !default_model_init_unfold, Hw, Hs. reflexivity.
Qed.

(* ===================================================================== *)
(** ** The engine and test_ddpm_fwd_p_jump *)
(* ===================================================================== *)

Lemma example_schedule_valid :
  Forall (fun b => 0 < b < 1)
         (map (interpolate (1 / 10000) (1 / 10) 10) (seq 1 10)).
Proof.
  apply Forall_forall. intros b Hb.
  apply in_map_iff in Hb. destruct Hb as [t [<- Ht]]. apply in_seq in Ht.
  rewrite interpolate_example by lia.
  assert (H0 : 0 <= IZR (Z.of_nat (t - 1))) by (apply IZR_le; lia).
  assert (H9 : IZR (Z.of_nat (t - 1)) <= 9) by (apply IZR_le; lia).
  lra.
Qed.

Lemma alpha_bar_nonneg (bs : list R) :
  Forall (fun b => 0 < b < 1) bs ->
  Forall (fun a => 0 <= a)
         (map (Closed.alpha_bar (0 :: bs)) (seq 0 (length (0 :: bs)))).
Proof.
  intros Hvalid. apply Forall_forall. intros a Ha.
  apply in_map_iff in Ha. destruct Ha as [t [<- Ht]]. apply in_seq in Ht.
  simpl length in Ht.
  pose proof (alpha_bar_pos bs Hvalid t ltac:(lia)). lra.
Qed.

(** The engine built on the generated schedule passes
    [test_ddpm_fwd_p_jump]. *)
Lemma engine_passes_fwd_p_jump :
  TestDDPM.test_ddpm_fwd_p_jump generate_linear_schedule new.
Proof.
  unfold TestDDPM.test_ddpm_fwd_p_jump. cbv zeta.
  rewrite gen_beta_schedule_interpolate by lia.
  rewrite generate_linear_schedule_ok by (try lia; lra).
  change (Z.to_nat 10) with 10%nat.
  rewrite engine_fwd_scale, engine_fwd_var. cbn [vs_beta].
  set (bs := map (interpolate (1 / 10000) (1 / 10) 10) (seq 1 10)).
  unfold calc_forward_scale, calc_forward_var.
  rewrite calc_alpha_bar_of_reals, rsub_of_reals.
  rewrite tsqrt_of_reals by (apply alpha_bar_nonneg, example_schedule_valid).
  split; apply allclose_refl; unfold default_rtol, default_atol; lra.
Qed.

(* ===================================================================== *)
(** ** Further properties of [gen_beta_schedule] *)
(* ===================================================================== *)

Lemma gen_beta_schedule_negative (beta1 betaT : R) (T : Z) :
  (T < 0)%Z -> gen_beta_schedule beta1 betaT T = Raise RuntimeError.
Proof.
  intros HT. unfold gen_beta_schedule, linspace.
  destruct (Z.ltb_spec T 0); [reflexivity | lia].
Qed.

(** X1.  [gen_beta_schedule] fails exactly when [T] is negative, and then
    with the [RuntimeError] of [torch.linspace]; the bounds are never a
    reason to fail. *)
Theorem X1_gen_beta_schedule_error :
  forall (beta1 betaT : R) (T : Z),
    (gen_beta_schedule beta1 betaT T = Raise RuntimeError <-> (T < 0)%Z)
    /\ (forall e : exn,
          gen_beta_schedule beta1 betaT T = Raise e -> e = RuntimeError)
    /\ ((exists beta : tensor, gen_beta_schedule beta1 betaT T = Ok beta)
        <-> (0 <= T)%Z).
Proof.
  intros b1 bT T. destruct (Z.ltb_spec T 0) as [HT | HT].
  - rewrite gen_beta_schedule_negative by assumption.
    split; [split; [intros _; assumption | reflexivity] |].
    split; [intros e He; now inversion He |].
    split; [intros [beta Hb]; discriminate | lia].
  - rewrite gen_beta_schedule_interpolate by assumption.
    split; [split; [discriminate | lia] |].
    split; [intros e He; discriminate |].
    split; [intros _; assumption | intros _; eexists; reflexivity].
Qed.

(** X2.  For [T >= 0] and any real bounds, [gen_beta_schedule] returns
    [T + 1] finite entries: a zero, then a sequence that starts at
    [beta1] (when [T >= 1]) and ends at [betaT] (when [T >= 2]). *)
Theorem X2_gen_beta_schedule_shape :
  forall (T : nat) (beta1 betaT : R),
    exists bs : list R,
      gen_beta_schedule beta1 betaT (Z.of_nat T) = Ok (of_reals (0 :: bs))
      /\ length bs = T
      /\ ((1 <= T)%nat -> nth 0 bs 0 = beta1)
      /\ ((2 <= T)%nat -> nth (T - 1) bs 0 = betaT).
Proof.
  intros T b1 bT. exists (map (interpolate b1 bT T) (seq 1 T)).
  split; [rewrite gen_beta_schedule_interpolate by lia; now rewrite Nat2Z.id |].
  split; [now rewrite length_map, length_seq |].
  assert (Hnth : forall i, (i < T)%nat ->
                   nth i (map (interpolate b1 bT T) (seq 1 T)) 0
                   = interpolate b1 bT T (S i)).
  { intros i Hi.
    rewrite (nth_indep _ 0 (interpolate b1 bT T 0))
      by (rewrite length_map, length_seq; lia).
    rewrite map_nth, seq_nth by lia. reflexivity. }
  split.
  - intros H1. rewrite Hnth by lia. now apply interpolate_first.
  - intros H2. rewrite Hnth by lia.
    replace (S (T - 1)) with T by lia. now apply interpolate_last.
Qed.

Lemma interpolate_monotone (lo hi : R) (n i j : nat) :
  lo <= hi -> (1 <= i <= j)%nat -> (j <= n)%nat ->
  lo <= interpolate lo hi n i
  /\ interpolate lo hi n i <= interpolate lo hi n j
  /\ interpolate lo hi n j <= hi.
Proof.
  intros Hle Hij Hj. unfold interpolate.
  destruct n as [|[|n]]; [lia | lra |].
  set (m := S (S n)) in *.
  assert (Hm : 0 < INR (m - 1)) by (apply lt_0_INR; unfold m; lia).
  assert (Hinv : 0 < / INR (m - 1)) by now apply Rinv_0_lt_compat.
  assert (Hi0 : 0 <= INR (i - 1)) by apply pos_INR.
  assert (Hle_ij : INR (i - 1) <= INR (j - 1)) by (apply le_INR; lia).
  assert (Hle_jm : INR (j - 1) <= INR (m - 1)) by (apply le_INR; lia).
  assert (Hri : 0 <= INR (i - 1) / INR (m - 1))
    by (apply Rmult_le_pos; lra).
  assert (Hrij : INR (i - 1) / INR (m - 1) <= INR (j - 1) / INR (m - 1))
    by (apply Rmult_le_compat_r; lra).
  assert (Hrj : INR (j - 1) / INR (m - 1) <= 1).
  { apply (Rmult_le_reg_r (INR (m - 1))); [assumption |].
    unfold Rdiv. rewrite Rmult_assoc, Rinv_l by lra. lra. }
  nra.
Qed.

Lemma gen_beta_schedule_entry (beta1 betaT : R) (T t : nat) :
  (1 <= t <= T)%nat ->
  getitem (of_reals (0 :: map (interpolate beta1 betaT T) (seq 1 T)))
          (Z.of_nat t)
  = Ok (Fin (interpolate beta1 betaT T t)).
Proof.
  intros Ht. rewrite getitem_of_reals
    by (cbn [length]; rewrite length_map, length_seq; lia).
  do 2 f_equal. destruct t as [|t]; [lia |]. cbn [nth].
  rewrite (nth_indep _ 0 (interpolate beta1 betaT T 0))
    by (rewrite length_map, length_seq; lia).
  rewrite map_nth, seq_nth by lia. reflexivity.
Qed.

(** X3.  When [beta1 <= betaT], the entries of index [1..T] of
    [gen_beta_schedule] never decrease and stay between the two bounds. *)
Theorem X3_gen_beta_schedule_monotone :
  forall (T i j : nat) (beta1 betaT : R) (beta : tensor),
    beta1 <= betaT ->
    (1 <= i <= j)%nat -> (j <= T)%nat ->
    gen_beta_schedule beta1 betaT (Z.of_nat T) = Ok beta ->
    exists bi bj : R,
      getitem beta (Z.of_nat i) = Ok (Fin bi)
      /\ getitem beta (Z.of_nat j) = Ok (Fin bj)
      /\ beta1 <= bi /\ bi <= bj /\ bj <= betaT.
Proof.
  intros T i j b1 bT beta Hle Hij Hj Hgen.
  rewrite gen_beta_schedule_interpolate, Nat2Z.id in Hgen by lia.
  inversion Hgen; subst beta; clear Hgen.
  exists (interpolate b1 bT T i), (interpolate b1 bT T j).
  split; [apply gen_beta_schedule_entry; lia |].
  split; [apply gen_beta_schedule_entry; lia |].
  now apply interpolate_monotone.
Qed.

(** The three-step schedule from 0 to 1 rises from index 1 to index 3. *)
Lemma X3_witness :
  exists bi bj : R,
    getitem (of_reals (0 :: map (interpolate 0 1 3) (seq 1 3))) (Z.of_nat 1)
    = Ok (Fin bi)
    /\ getitem (of_reals (0 :: map (interpolate 0 1 3) (seq 1 3))) (Z.of_nat 3)
       = Ok (Fin bj)
    /\ 0 <= bi /\ bi <= bj /\ bj <= 1.
Proof.
  apply (X3_gen_beta_schedule_monotone 3 1 3 0 1).
  - lra.
  - lia.
  - lia.
  - now rewrite gen_beta_schedule_interpolate by lia.
Defined.




(* ===================================================================== *)
(** ** Indexing in the posterior references *)
(* ===================================================================== *)

Lemma getitem_in_range (x : tensor) (i : Z) :
  (- Z.of_nat (length x) <= i < Z.of_nat (length x))%Z ->
  exists v : num, getitem x i = Ok v.
Proof.
  intros Hi. unfold getitem.
  set (j := if (i <? 0)%Z then (i + Z.of_nat (length x))%Z else i).
  assert (Hj : (0 <= j < Z.of_nat (length x))%Z)
    by (unfold j; destruct (Z.ltb_spec i 0); lia).
  destruct (Z.ltb_spec j 0); [lia |].
  destruct (Z.leb_spec (Z.of_nat (length x)) j); [lia |]. cbn [orb].
  destruct (nth_error x (Z.to_nat j)) as [v |] eqn:E; [now exists v |].
  apply nth_error_None in E. lia.
Qed.

Lemma getitem_out_of_range (x : tensor) (i : Z) :
  ~ (- Z.of_nat (length x) <= i < Z.of_nat (length x))%Z ->
  getitem x i = Raise IndexError.
Proof.
  intros Hi. unfold getitem.
  set (j := if (i <? 0)%Z then (i + Z.of_nat (length x))%Z else i).
  assert (Hj : (j < 0 \/ Z.of_nat (length x) <= j)%Z)
    by (unfold j; destruct (Z.ltb_spec i 0); lia).
  destruct (Z.ltb_spec j 0); [reflexivity |].
  destruct (Z.leb_spec (Z.of_nat (length x)) j); [reflexivity | lia].
Qed.

(** A negative index counts from the end. *)
Lemma getitem_negative (x : tensor) (i : Z) :
  (- Z.of_nat (length x) <= i < 0)%Z ->
  getitem x i = getitem x (i + Z.of_nat (length x)).
Proof.
  intros Hi. unfold getitem. cbv zeta.
  rewrite (proj2 (Z.ltb_lt i 0)) by lia. cbv iota.
  assert (Hge : (i + Z.of_nat (length x) <? 0)%Z = false)
    by (apply Z.ltb_ge; lia).
  repeat rewrite Hge. reflexivity.
Qed.

(** X5.  On three tensors of one length [n], [calc_imu] and [calc_ivar]
    return exactly for [-n < t < n] and raise [IndexError] otherwise,
    since they read index [t - 1] as well as [t]; [calc_imu_eps_parts]
    reads index [t] only and returns exactly for [-n <= t < n]. *)
Theorem X5_posterior_index_range :
  forall (alpha alpha_bar beta : tensor) (t : Z) (x0 : R),
    length alpha = length beta ->
    length alpha_bar = length beta ->
    (((exists r, calc_imu alpha alpha_bar beta t x0 = Ok r)
      <-> (- Z.of_nat (length beta) < t < Z.of_nat (length beta))%Z)
     /\ (~ (- Z.of_nat (length beta) < t < Z.of_nat (length beta))%Z ->
         calc_imu alpha alpha_bar beta t x0 = Raise IndexError))
    /\ (((exists r, calc_ivar alpha alpha_bar beta t = Ok r)
         <-> (- Z.of_nat (length beta) < t < Z.of_nat (length beta))%Z)
        /\ (~ (- Z.of_nat (length beta) < t < Z.of_nat (length beta))%Z ->
            calc_ivar alpha alpha_bar beta t = Raise IndexError))
    /\ (((exists r, calc_imu_eps_parts alpha alpha_bar beta t = Ok r)
         <-> (- Z.of_nat (length beta) <= t < Z.of_nat (length beta))%Z)
        /\ (~ (- Z.of_nat (length beta) <= t < Z.of_nat (length beta))%Z ->
            calc_imu_eps_parts alpha alpha_bar beta t = Raise IndexError)).
Proof.
  intros alpha alpha_bar beta t x0 Ha Hab.
  set (n := Z.of_nat (length beta)).
  assert (Hin : forall x i, length x = length beta -> (- n <= i < n)%Z ->
                  exists v, getitem x i = Ok v).
  { intros x i Hx Hi. apply getitem_in_range. rewrite Hx. exact Hi. }
  assert (Hout : forall x i, length x = length beta -> ~ (- n <= i < n)%Z ->
                   getitem x i = Raise IndexError).
  { intros x i Hx Hi. apply getitem_out_of_range. rewrite Hx. exact Hi. }
  assert (Himu : ~ (- n < t < n)%Z ->
                 calc_imu alpha alpha_bar beta t x0 = Raise IndexError).
  { intros Ht. unfold calc_imu.
    destruct (Z_le_gt_dec (- n) t) as [Hlo | Hlo];
      [destruct (Z_lt_le_dec t n) as [Hhi | Hhi] |].
    - destruct (Hin alpha t Ha) as [a Ea]; [lia |]. rewrite Ea. cbn [bind].
      rewrite (Hout alpha_bar (t - 1)%Z Hab) by lia. reflexivity.
    - rewrite (Hout alpha t Ha) by lia. reflexivity.
    - rewrite (Hout alpha t Ha) by lia. reflexivity. }
  assert (Hivar : ~ (- n < t < n)%Z ->
                  calc_ivar alpha alpha_bar beta t = Raise IndexError).
  { intros Ht. unfold calc_ivar.
    destruct (Z_le_gt_dec (- n) (t - 1)) as [Hlo | Hlo];
      [destruct (Z_lt_le_dec (t - 1) n) as [Hhi | Hhi] |].
    - destruct (Hin alpha_bar (t - 1)%Z Hab) as [a Ea]; [lia |].
      rewrite Ea. cbn [bind].
      rewrite (Hout alpha_bar t Hab) by lia. reflexivity.
    - rewrite (Hout alpha_bar (t - 1)%Z Hab) by lia. reflexivity.
    - rewrite (Hout alpha_bar (t - 1)%Z Hab) by lia. reflexivity. }
  assert (Heps : ~ (- n <= t < n)%Z ->
                 calc_imu_eps_parts alpha alpha_bar beta t = Raise IndexError).
  { intros Ht. unfold calc_imu_eps_parts.
    rewrite (Hout alpha t Ha) by lia. reflexivity. }
  split; [| split].
  - split; [split |]; [| | exact Himu].
    + intros [r Hr]. destruct (Z_lt_le_dec (- n) t); [| rewrite Himu in Hr by lia; discriminate].
      destruct (Z_lt_le_dec t n); [lia | rewrite Himu in Hr by lia; discriminate].
    + intros Ht. unfold calc_imu.
      destruct (Hin alpha t Ha) as [a Ea]; [lia |].
      destruct (Hin alpha_bar (t - 1)%Z Hab) as [p Ep]; [lia |].
      destruct (Hin alpha_bar t Hab) as [q Eq]; [lia |].
      destruct (Hin beta t eq_refl) as [b Eb]; [lia |].
      rewrite Ea, Ep, Eq, Eb. cbn [bind]. eexists; reflexivity.
  - split; [split |]; [| | exact Hivar].
    + intros [r Hr]. destruct (Z_lt_le_dec (- n) t); [| rewrite Hivar in Hr by lia; discriminate].
      destruct (Z_lt_le_dec t n); [lia | rewrite Hivar in Hr by lia; discriminate].
    + intros Ht. unfold calc_ivar.
      destruct (Hin alpha_bar (t - 1)%Z Hab) as [p Ep]; [lia |].
      destruct (Hin alpha_bar t Hab) as [q Eq]; [lia |].
      destruct (Hin beta t eq_refl) as [b Eb]; [lia |].
      rewrite Ep, Eq, Eb. cbn [bind]. eexists; reflexivity.
  - split; [split |]; [| | exact Heps].
    + intros [r Hr]. destruct (Z_le_gt_dec (- n) t); [| rewrite Heps in Hr by lia; discriminate].
      destruct (Z_lt_le_dec t n); [lia | rewrite Heps in Hr by lia; discriminate].
    + intros Ht. unfold calc_imu_eps_parts.
      destruct (Hin alpha t Ha) as [a Ea]; [lia |].
      destruct (Hin beta t eq_refl) as [b Eb]; [lia |].
      destruct (Hin alpha_bar t Hab) as [q Eq]; [lia |].
      rewrite Ea, Eb, Eq. cbn [bind]. eexists; reflexivity.
Qed.

(** On tensors of length 2, index 2 is out of range for [calc_imu]. *)
Lemma X5_witness :
  calc_imu [Fin 1; Fin 1] [Fin 1; Fin 1] [Fin 0; Fin 0] 2 0 = Raise IndexError.
Proof.
  apply (X5_posterior_index_range
           [Fin 1; Fin 1] [Fin 1; Fin 1] [Fin 0; Fin 0] 2 0).
  - reflexivity.
  - reflexivity.
  - simpl. lia.
Defined.

(* ===================================================================== *)
(** ** Non-finite posteriors *)
(* ===================================================================== *)

Lemma ndiv_by_zero (x : num) (d : R) : d = 0 -> (x / Fin d)%num = NaN.
Proof.
  intros ->. destruct x; [apply ndiv_zero | reflexivity].
Qed.

Lemma length_calc_alpha_bar (bs : list R) :
  length (calc_alpha_bar (alpha_from_beta (of_reals bs))) = length bs.
Proof.
  rewrite calc_alpha_bar_of_reals, length_of_reals, length_map, length_seq.
  reflexivity.
Qed.

(** Index [-1] of the cumulative product is its last entry. *)
Lemma get_alpha_bar_wrap (bs : list R) :
  getitem (calc_alpha_bar (alpha_from_beta (of_reals (0 :: bs)))) (-1)
  = Ok (Fin (Closed.alpha_bar (0 :: bs) (length bs))).
Proof.
  rewrite getitem_negative by (rewrite length_calc_alpha_bar; simpl length; lia).
  rewrite length_calc_alpha_bar.
  replace (-1 + Z.of_nat (length (0%R :: bs)))%Z with (Z.of_nat (length bs))
    by (simpl length; lia).
  apply get_alpha_bar. lia.
Qed.

(** X6.  On a finite beta sequence that starts with the zero sentinel,
    [t = 0] is no index error in [calc_imu] and [calc_ivar]: the index
    [t - 1 = -1] wraps around to [alpha_bar[T]], the denominator
    [1 - alpha_bar[0]] is zero, and the results are not finite. *)
Theorem X6_posterior_at_t0 :
  forall (bs : list R) (x0 : R),
    calc_imu (alpha_from_beta (of_reals (0 :: bs)))
             (calc_alpha_bar (alpha_from_beta (of_reals (0 :: bs))))
             (of_reals (0 :: bs)) 0 x0
    = Ok (NaN, NaN)
    /\ calc_ivar (alpha_from_beta (of_reals (0 :: bs)))
                 (calc_alpha_bar (alpha_from_beta (of_reals (0 :: bs))))
                 (of_reals (0 :: bs)) 0
       = Ok NaN
    /\ getitem (calc_alpha_bar (alpha_from_beta (of_reals (0 :: bs)))) (0 - 1)
       = Ok (Fin (Closed.alpha_bar (0 :: bs) (length bs))).
Proof.
  intros bs x0.
  pose proof (get_alpha bs 0 ltac:(lia)) as Gal.
  pose proof (get_alpha_bar bs 0 ltac:(lia)) as Gab.
  pose proof (get_beta bs 0 ltac:(lia)) as Gb.
  rewrite alpha_bar_0 in Gab. change (Z.of_nat 0) with 0%Z in *.
  assert (Hden : 1 - 1 = 0) by ring.
  split; [| split].
  - unfold calc_imu. change (0 - 1)%Z with (-1)%Z.
    rewrite Gal, get_alpha_bar_wrap, Gab, Gb. cbn [bind nsub nlift2].
    rewrite !ndiv_by_zero by assumption. reflexivity.
  - unfold calc_ivar. change (0 - 1)%Z with (-1)%Z.
    rewrite get_alpha_bar_wrap, Gab, Gb. cbn [bind nsub nlift2].
    rewrite !ndiv_by_zero by assumption. reflexivity.
  - apply get_alpha_bar_wrap.
Qed.

Lemma posterior_after_zero_step (rest : list R) (x0 : R) :
  calc_imu (alpha_from_beta (of_reals (0 :: 0 :: rest)))
           (calc_alpha_bar (alpha_from_beta (of_reals (0 :: 0 :: rest))))
           (of_reals (0 :: 0 :: rest)) 1 x0
  = Ok (NaN, NaN)
  /\ calc_ivar (alpha_from_beta (of_reals (0 :: 0 :: rest)))
               (calc_alpha_bar (alpha_from_beta (of_reals (0 :: 0 :: rest))))
               (of_reals (0 :: 0 :: rest)) 1
     = Ok NaN.
Proof.
  assert (Ha1 : Closed.alpha_bar (0 :: 0 :: rest) 1 = 1)
    by (unfold Closed.alpha_bar; simpl; ring).
  pose proof (get_alpha (0 :: rest) 1 ltac:(simpl; lia)) as Gal.
  pose proof (get_alpha_bar (0 :: rest) 0 ltac:(simpl; lia)) as Gab0.
  pose proof (get_alpha_bar (0 :: rest) 1 ltac:(simpl; lia)) as Gab1.
  pose proof (get_beta (0 :: rest) 1 ltac:(simpl; lia)) as Gb.
  rewrite Ha1 in Gab1.
  change (Z.of_nat 1) with 1%Z in *. change (Z.of_nat 0) with 0%Z in *.
  assert (Hden : 1 - 1 = 0) by ring.
  split.
  - unfold calc_imu. change (1 - 1)%Z with 0%Z.
    rewrite Gal, Gab0, Gab1, Gb. cbn [bind nsub nlift2].
    rewrite !ndiv_by_zero by assumption. reflexivity.
  - unfold calc_ivar. change (1 - 1)%Z with 0%Z.
    rewrite Gab0, Gab1, Gb. cbn [bind nsub nlift2].
    rewrite !ndiv_by_zero by assumption. reflexivity.
Qed.

(** X7.  With a lower bound of 0 (a value of the test grid) and
    [T >= 1], the schedule of [gen_beta_schedule] has [beta[1] = 0], and
    [calc_imu] and [calc_ivar] at [t = 1] are not finite, whatever the
    upper bound and [x0]. *)
Theorem X7_posterior_with_zero_lower_bound :
  forall (T : nat) (betaT x0 : R) (beta : tensor),
    (1 <= T)%nat ->
    gen_beta_schedule 0 betaT (Z.of_nat T) = Ok beta ->
    getitem beta 1 = Ok (Fin 0)
    /\ calc_imu (alpha_from_beta beta) (calc_alpha_bar (alpha_from_beta beta))
                beta 1 x0
       = Ok (NaN, NaN)
    /\ calc_ivar (alpha_from_beta beta) (calc_alpha_bar (alpha_from_beta beta))
                 beta 1
       = Ok NaN.
Proof.
  intros T bT x0 beta HT Hgen.
  rewrite gen_beta_schedule_interpolate, Nat2Z.id in Hgen by lia.
  inversion Hgen; subst beta; clear Hgen.
  destruct T as [|T]; [lia |].
  cbn [seq map]. rewrite interpolate_first by lia.
  split; [| apply posterior_after_zero_step].
  apply (get_beta (0 :: map (interpolate 0 bT (S T)) (seq 2 T)) 1).
  simpl. lia.
Qed.

(** The one-step schedule with both bounds 0. *)
Lemma X7_witness :
  calc_ivar (alpha_from_beta (of_reals [0; 0]))
            (calc_alpha_bar (alpha_from_beta (of_reals [0; 0])))
            (of_reals [0; 0]) 1
  = Ok NaN.
Proof.
  apply (X7_posterior_with_zero_lower_bound 1 0 0 (of_reals [0; 0])).
  - lia.
  - reflexivity.
Defined.

(* ===================================================================== *)
(** ** The forward arrays *)
(* ===================================================================== *)

Lemma nth_error_forward_var (bs : list R) (t : nat) :
  (t <= length bs)%nat ->
  nth_error (calc_forward_var
               (calc_alpha_bar (alpha_from_beta (of_reals (0 :: bs))))) t
  = Some (Fin (1 - Closed.alpha_bar (0 :: bs) t)).
Proof.
  intros Ht. unfold calc_forward_var, rsub.
  now rewrite nth_error_map, nth_error_alpha_bar.
Qed.

Lemma nth_error_forward_scale (bs : list R) (t : nat) :
  (t <= length bs)%nat ->
  nth_error (calc_forward_scale
               (calc_alpha_bar (alpha_from_beta (of_reals (0 :: bs))))) t
  = Some (nsqrt (Fin (Closed.alpha_bar (0 :: bs) t))).
Proof.
  intros Ht. unfold calc_forward_scale, tsqrt.
  now rewrite nth_error_map, nth_error_alpha_bar.
Qed.

Section Forward.

Variable bs : list R.
Hypothesis bs_valid : Forall (fun b => 0 < b < 1) bs.

Local Abbreviation beta := (of_reals (0 :: bs)).
Local Abbreviation alpha_bar :=
  (calc_alpha_bar (alpha_from_beta (of_reals (0 :: bs)))).






End Forward.





(* ===================================================================== *)
(** ** A step of variance 1 *)
(* ===================================================================== *)

Lemma alpha_bar_unit (bs : list R) (t : nat) :
  Forall (fun b => 0 <= b <= 1) bs ->
  (t <= length bs)%nat ->
  0 <= Closed.alpha_bar (0 :: bs) t <= 1.
Proof.
  intros Hbs. induction t as [|t IH]; intros Ht.
  - rewrite alpha_bar_0. lra.
  - rewrite alpha_bar_S by assumption.
    assert (Hb : 0 <= nth (S t) (0 :: bs) 0 <= 1).
    { cbn [nth]. rewrite Forall_forall in Hbs. apply Hbs, nth_In. lia. }
    specialize (IH ltac:(lia)). nra.
Qed.

(** X15.  If a beta sequence with entries in [[0, 1]] has
    [beta[t] = 1] (an upper bound of 1 is a value of the test grid), then
    at that [t] the forward jump is pure noise ([scale = 0], [var = 1]),
    the posterior of [calc_imu] and [calc_ivar] stays finite with
    [scale = 0], and both parts of [calc_imu_eps_parts] are not finite. *)
Theorem X15_step_of_variance_one :
  forall (bs : list R) (t : nat) (x0 : R),
    Forall (fun b => 0 <= b <= 1) bs ->
    (1 <= t <= length bs)%nat ->
    nth t (0 :: bs) 0 = 1 ->
    getitem (calc_forward_scale
               (calc_alpha_bar (alpha_from_beta (of_reals (0 :: bs)))))
            (Z.of_nat t) = Ok (Fin 0)
    /\ getitem (calc_forward_var
                  (calc_alpha_bar (alpha_from_beta (of_reals (0 :: bs)))))
               (Z.of_nat t) = Ok (Fin 1)
    /\ calc_imu (alpha_from_beta (of_reals (0 :: bs)))
                (calc_alpha_bar (alpha_from_beta (of_reals (0 :: bs))))
                (of_reals (0 :: bs)) (Z.of_nat t) x0
       = Ok (Fin 0,
             Fin (sqrt (Closed.alpha_bar (0 :: bs) (t - 1)) * x0))
    /\ calc_ivar (alpha_from_beta (of_reals (0 :: bs)))
                 (calc_alpha_bar (alpha_from_beta (of_reals (0 :: bs))))
                 (of_reals (0 :: bs)) (Z.of_nat t)
       = Ok (Fin (1 - Closed.alpha_bar (0 :: bs) (t - 1)))
    /\ calc_imu_eps_parts (alpha_from_beta (of_reals (0 :: bs)))
                          (calc_alpha_bar (alpha_from_beta (of_reals (0 :: bs))))
                          (of_reals (0 :: bs)) (Z.of_nat t)
       = Ok (NaN, NaN).
Proof.
  intros bs t x0 Hbs Ht Hone.
  assert (Hal : Closed.alpha (0 :: bs) t = 0)
    by (unfold Closed.alpha; rewrite Hone; ring).
  assert (HA : Closed.alpha_bar (0 :: bs) t = 0).
  { destruct t as [|t]; [lia |]. rewrite alpha_bar_S by lia.
    rewrite Hone. ring. }
  pose proof (alpha_bar_unit bs (t - 1) Hbs ltac:(lia)) as Hp.
  pose proof (get_alpha bs t ltac:(lia)) as Gal.
  pose proof (get_alpha_bar bs t ltac:(lia)) as Gab.
  pose proof (get_alpha_bar_pred bs t Ht) as Gabp.
  pose proof (get_beta bs t ltac:(lia)) as Gb.
  rewrite Hal in Gal. rewrite HA in Gab. rewrite Hone in Gb.
  set (A' := Closed.alpha_bar (0 :: bs) (t - 1)) in *.
  assert (Hs0 : nsqrt (Fin 0) = Fin 0)
    by (rewrite nsqrt_fin by lra; now rewrite sqrt_0).
  assert (Hden : 1 - 0 <> 0) by lra.
  split; [| split; [| split; [| split]]].
  - apply getitem_nat. rewrite nth_error_forward_scale by lia.
    now rewrite HA, Hs0.
  - apply getitem_nat. rewrite nth_error_forward_var by lia.
    rewrite HA. do 2 f_equal. ring.
  - unfold calc_imu. rewrite Gal, Gabp, Gab, Gb. cbn [bind nsub nlift2].
    rewrite Hs0, nsqrt_fin by lra. cbn [nmul nlift2].
    rewrite !ndiv_fin by assumption. cbn [nmul nlift2].
    do 2 f_equal; f_equal; field.
  - unfold calc_ivar. rewrite Gabp, Gab, Gb. cbn [bind nsub nlift2].
    rewrite !ndiv_fin by assumption. cbn [nmul nlift2].
    do 2 f_equal. field.
  - unfold calc_imu_eps_parts. rewrite Gal, Gb, Gab. cbn [bind nsub nneg nlift2].
    rewrite Hs0, nsqrt_fin by lra. cbn [nmul nlift2].
    rewrite !ndiv_by_zero by ring. reflexivity.
Qed.

(** The one-step schedule [[0, 1]] at [t = 1]. *)
Lemma X15_witness :
  calc_imu_eps_parts (alpha_from_beta (of_reals [0; 1]))
                     (calc_alpha_bar (alpha_from_beta (of_reals [0; 1])))
                     (of_reals [0; 1]) (Z.of_nat 1)
  = Ok (NaN, NaN).
Proof.
  apply (X15_step_of_variance_one [1] 1 0).
  - constructor; [lra | constructor].
  - simpl. lia.
  - reflexivity.
Defined.

(* ===================================================================== *)
(** ** A non-finite entry in the beta sequence *)
(* ===================================================================== *)

Lemma fold_left_nmul_nan (l : tensor) : fold_left nmul l NaN = NaN.
Proof. induction l as [|x l IH]; [reflexivity | exact IH]. Qed.

Lemma nmul_nan_r (x : num) : (x * NaN)%num = NaN.
Proof. destruct x; reflexivity. Qed.

Lemma fold_left_nmul_in_nan (l : tensor) (acc : num) :
  In NaN l -> fold_left nmul l acc = NaN.
Proof.
  revert acc. induction l as [|x l IH]; intros acc Hin; [contradiction |].
  cbn [fold_left]. destruct Hin as [-> | Hin].
  - rewrite nmul_nan_r. apply fold_left_nmul_nan.
  - now apply IH.
Qed.

Lemma nth_error_cumprod (x : tensor) (t : nat) :
  (t < length x)%nat ->
  nth_error (cumprod x) t = Some (prod (firstn (S t) x)).
Proof.
  intros Ht. unfold cumprod. rewrite nth_error_map, nth_error_seq.
  destruct (Nat.ltb_spec t (length x)); [reflexivity | lia].
Qed.

(** X13.  A non-finite entry [beta[k]] makes every later entry of
    [calc_alpha_bar], [calc_forward_scale] and [calc_forward_var]
    non-finite: from index [k] on, the cumulative product never
    recovers. *)
Theorem X13_non_finite_beta_propagates :
  forall (beta : tensor) (k t : nat),
    nth_error beta k = Some NaN ->
    (k <= t < length beta)%nat ->
    getitem (calc_alpha_bar (alpha_from_beta beta)) (Z.of_nat t) = Ok NaN
    /\ getitem (calc_forward_scale (calc_alpha_bar (alpha_from_beta beta)))
               (Z.of_nat t) = Ok NaN
    /\ getitem (calc_forward_var (calc_alpha_bar (alpha_from_beta beta)))
               (Z.of_nat t) = Ok NaN.
Proof.
  intros beta k t Hk Ht.
  assert (Hab : nth_error (calc_alpha_bar (alpha_from_beta beta)) t = Some NaN).
  { unfold calc_alpha_bar, alpha_from_beta, rsub.
    rewrite nth_error_cumprod by (rewrite length_map; lia).
    f_equal. apply fold_left_nmul_in_nan.
    apply (nth_error_In _ k). rewrite nth_error_firstn.
    destruct (Nat.ltb_spec k (S t)); [| lia].
    now rewrite nth_error_map, Hk. }
  split; [now apply getitem_nat |].
  split; apply getitem_nat.
  - unfold calc_forward_scale, tsqrt. now rewrite nth_error_map, Hab.
  - unfold calc_forward_var, rsub. now rewrite nth_error_map, Hab.
Qed.

(** A sequence whose entry 1 is not finite, read at index 2. *)
Lemma X13_witness :
  getitem (calc_alpha_bar (alpha_from_beta [Fin 0; NaN; Fin (1 / 2)]))
          (Z.of_nat 2)
  = Ok NaN.
Proof.
  apply (X13_non_finite_beta_propagates [Fin 0; NaN; Fin (1 / 2)] 1 2).
  - reflexivity.
  - simpl. lia.
Defined.

(* ===================================================================== *)
(** ** Failures of the collaborators of default_model_init *)
(* ===================================================================== *)

(** X16.  An exception of a collaborator leaves [default_model_init]
    unchanged, and nothing that would come after it is consulted: if
    [prepare_model] raises, the run raises the same exception whatever
    [init_weights] and [apply_sn] are; if [init_weights] raises, whatever
    [apply_sn] is; and with [spectr_norm] false the run is the same for
    every [apply_sn]. *)
Theorem X16_default_model_init_failures :
  forall (Model Device WeightInit Other Store : Type)
         (prepare_model : Model -> Device -> Store -> result (Model * Store))
         (init_weights : Model -> WeightInit -> Store -> result Store)
         (apply_sn : Model -> Store -> result Store)
         (model : Model) (cfg : Funcs.ModelConfig WeightInit Other)
         (device : Device) (st : Store),
    (forall (e : exn),
        prepare_model model device st = Raise e ->
        forall (init_weights' : Model -> WeightInit -> Store -> result Store)
               (apply_sn' : Model -> Store -> result Store),
          Funcs.default_model_init prepare_model init_weights' apply_sn'
            model cfg device (st, []) = Raise e)
    /\ (forall (m : Model) (st1 : Store) (e : exn),
          prepare_model model device st = Ok (m, st1) ->
          init_weights m (Funcs.weight_init cfg) st1 = Raise e ->
          forall apply_sn' : Model -> Store -> result Store,
            Funcs.default_model_init prepare_model init_weights apply_sn'
              model cfg device (st, []) = Raise e)
    /\ (forall (m : Model) (st1 st2 : Store) (e : exn),
          prepare_model model device st = Ok (m, st1) ->
          init_weights m (Funcs.weight_init cfg) st1 = Ok st2 ->
          Funcs.spectr_norm cfg = true ->
          apply_sn m st2 = Raise e ->
          Funcs.default_model_init prepare_model init_weights apply_sn
            model cfg device (st, []) = Raise e)
    /\ (Funcs.spectr_norm cfg = false ->
        forall apply_sn' : Model -> Store -> result Store,
          Funcs.default_model_init prepare_model init_weights apply_sn'
            model cfg device (st, [])
          = Funcs.default_model_init prepare_model init_weights apply_sn
              model cfg device (st, [])).
Proof.
  intros Model Device WeightInit Other Store prepare_model init_weights
    apply_sn model cfg device st.
  split; [| split; [| split]].
  - intros e Hp iw' sn'. now rewrite default_model_init_unfold, Hp.
  - intros m st1 e Hp Hi sn'. now rewrite default_model_init_unfold, Hp, Hi.
  - intros m st1 st2 e Hp Hi Hs Ha.
    now rewrite default_model_init_unfold, Hp, Hi, Hs, Ha.
  - intros Hs sn'. rewrite !default_model_init_unfold, Hs. reflexivity.
Qed.

(* ===================================================================== *)
(** ** Equal spacing *)
(* ===================================================================== *)



(* ===================================================================== *)
(** ** A vanishing denominator in binary32 *)
(* ===================================================================== *)

Lemma f32_mul_zero_or_nan (x : F32.f32) (s : bool) :
  F32.is_zero (F32.mul x (S754_zero s)) = true
  \/ F32.mul x (S754_zero s) = S754_nan.
Proof. destruct x; [left | right | right | left]; reflexivity. Qed.

Lemma f32_div_zero_or_nan (x d : F32.f32) :
  F32.is_zero d = true \/ d = S754_nan ->
  F32.is_finite (F32.div x d) = false.
Proof.
  intros [Hz | ->].
  - destruct d; try discriminate. apply f32_div_zero_not_finite.
  - destruct x; reflexivity.
Qed.

Lemma f32_sqrt_zero (x : F32.f32) :
  F32.is_zero x = true -> exists s : bool, F32.sqrt x = S754_zero s.
Proof. destruct x as [s | | |]; try discriminate. now exists s. Qed.

(** X18.  Where [1 - alpha_bar[t]] is zero in binary32, none of the
    posterior scale, bias and variance of [calc_imu] and [calc_ivar] is
    finite, nor is the noise coefficient [p1] of [calc_imu_eps_parts]:
    each divides by that zero.  This holds for whatever tensors the
    functions are given, at every index they can read. *)
Theorem X18_zero_denominator :
  forall (alpha alpha_bar beta : F32.tensor) (t : Z)
         (x0 a_t ab_p ab_t b_t : F32.f32),
    F32.getitem alpha t = Ok a_t ->
    F32.getitem alpha_bar (t - 1) = Ok ab_p ->
    F32.getitem alpha_bar t = Ok ab_t ->
    F32.getitem beta t = Ok b_t ->
    F32.is_zero (F32.sub F32.one ab_t) = true ->
    exists scale bias var p0 p1 : F32.f32,
      F32.calc_imu alpha alpha_bar beta t x0 = Ok (scale, bias)
      /\ F32.calc_ivar alpha alpha_bar beta t = Ok var
      /\ F32.calc_imu_eps_parts alpha alpha_bar beta t = Ok (p0, p1)
      /\ F32.is_finite scale = false
      /\ F32.is_finite bias = false
      /\ F32.is_finite var = false
      /\ F32.is_finite p1 = false.
Proof.
  intros alpha alpha_bar beta t x0 a_t ab_p ab_t b_t Ha Hp Hq Hb Hz.
  unfold F32.calc_imu, F32.calc_ivar, F32.calc_imu_eps_parts.
  rewrite Ha, Hp, Hq, Hb. cbn [bind].
  do 5 eexists.
  split; [reflexivity |]. split; [reflexivity |]. split; [reflexivity |].
  destruct (f32_sqrt_zero _ Hz) as [s Hs]. rewrite Hs.
  repeat split.
  - apply f32_div_zero_or_nan. now left.
  - apply f32_mul_not_finite, f32_div_zero_or_nan. now left.
  - apply f32_mul_not_finite, f32_div_zero_or_nan. now left.
  - apply f32_div_zero_or_nan, f32_mul_zero_or_nan.
Qed.

(** The theorem on [beta = [0, 1e-8]] at [t = 1], [x0 = 1]: the parts of
    [calc_imu_eps_parts] are 1 and an infinity. *)
Lemma X18_witness :
  exists scale bias var p1 : F32.f32,
    F32.calc_imu (F32.alpha_from_beta [F32.zero; F32.beta_1e8])
                 (F32.calc_alpha_bar (F32.alpha_from_beta [F32.zero; F32.beta_1e8]))
                 [F32.zero; F32.beta_1e8] 1 F32.one
    = Ok (scale, bias)
    /\ F32.calc_ivar (F32.alpha_from_beta [F32.zero; F32.beta_1e8])
                     (F32.calc_alpha_bar
                        (F32.alpha_from_beta [F32.zero; F32.beta_1e8]))
                     [F32.zero; F32.beta_1e8] 1
       = Ok var
    /\ F32.calc_imu_eps_parts
         (F32.alpha_from_beta [F32.zero; F32.beta_1e8])
         (F32.calc_alpha_bar (F32.alpha_from_beta [F32.zero; F32.beta_1e8]))
         [F32.zero; F32.beta_1e8] 1
       = Ok (F32.one, p1)
    /\ F32.is_finite scale = false
    /\ F32.is_finite bias = false
    /\ F32.is_finite var = false
    /\ F32.is_finite p1 = false.
Proof.
  destruct (X18_zero_denominator
              (F32.alpha_from_beta [F32.zero; F32.beta_1e8])
              (F32.calc_alpha_bar (F32.alpha_from_beta [F32.zero; F32.beta_1e8]))
              [F32.zero; F32.beta_1e8] 1 F32.one
              F32.one F32.one F32.one F32.beta_1e8
              eq_refl eq_refl eq_refl eq_refl eq_refl)
    as [scale [bias [var [p0 [p1 [H1 [H2 [H3 H4]]]]]]]].
  exists scale, bias, var, p1.
  split; [exact H1 |]. split; [exact H2 |]. split; [| exact H4].
  rewrite H3. vm_compute in H3. injection H3 as <- _. reflexivity.
Defined.
